(** * Stark print server: the job pipeline of [server.py]

    A shallow embedding of the upload handler, the FIFO job queue, the
    worker loop, the two external-process adapters and the bounded history
    ledger of [src/server.py], followed by the properties of the
    specification that concern them.

    Python statements are written in a small free monad ([prog]) whose
    primitive operations ([op]) are the calls the server makes on its shared
    objects and on the outside world.  Each primitive is atomic; a program
    is run either sequentially ([exec]) or interleaved with other threads
    ([run_schedule]).  The module [ipaddress] is a parameter of the
    address filter; the desktop client of [stark.py] is left out. *)

From Stdlib Require Import ZArith String Ascii List DecimalString DecimalZ DecimalPos Lia.
From stdpp Require Import gmap strings list.

Open Scope string_scope.

(* ===================================================================== *)
(** ** Strings: the [str] methods and [os.path] helpers the server uses   *)
(* ===================================================================== *)

Module Py.

(** [str(n)] for an integer, as used by f-strings. *)
Definition str_of_int (z : Z) : string :=
  NilZero.string_of_int (Z.to_int z).

(** [c.lower()] on one ASCII character. *)
Definition lower_ascii (c : ascii) : ascii :=
  let n := nat_of_ascii c in
  if (65 <=? n)%nat && (n <=? 90)%nat then ascii_of_nat (n + 32) else c.

(** [s.lower()], used to compare an extension with [pdf], [docx], [pptx]
    and [xlsx]: the letters of ASCII are lowered and every other byte is
    kept.  No character outside ASCII is lowered by Python to one of the
    letters of these four names, so the comparisons come out the same. *)
Fixpoint lower (s : string) : string :=
  match s with
  | EmptyString => EmptyString
  | String c r => String (lower_ascii c) (lower r)
  end.

(** [s.rsplit(sep, 1)] for the one-character separator [sep], as a pair
    when [sep] occurs in [s]: the text before its last occurrence and the
    text after it. *)
Fixpoint rsplit_last (sep : ascii) (s : string) : option (string * string) :=
  match s with
  | EmptyString => None
  | String c r =>
      match rsplit_last sep r with
      | Some (a, b) => Some (String c a, b)
      | None => if Ascii.eqb c sep then Some (EmptyString, r) else None
      end
  end.

(** [s.rsplit(".", 1)]: a list of one or two strings. *)
Definition rsplit1 (s : string) : list string :=
  match rsplit_last "." s with
  | Some (a, b) => [a; b]
  | None => [s]
  end.

(** Strings stand for Python [str] values through their UTF-8 encoding;
    [utf8] makes a string of the bytes given by their numbers. *)
Definition utf8 (l : list nat) : string :=
  string_of_list_ascii (map ascii_of_nat l).

(** The white space that [str.strip()] removes: the characters for which
    [str.isspace()] holds, U+0009 to U+000D, U+001C to U+0020, U+0085,
    U+00A0, U+1680, U+2000 to U+200A, U+2028, U+2029, U+202F, U+205F and
    U+3000, each as the bytes of its encoding. *)
Definition WHITESPACE : list (list ascii) :=
  map (map ascii_of_nat)
    [[9]; [10]; [11]; [12]; [13]; [28]; [29]; [30]; [31]; [32];
     [194; 133]; [194; 160]; [225; 154; 128];
     [226; 128; 128]; [226; 128; 129]; [226; 128; 130]; [226; 128; 131];
     [226; 128; 132]; [226; 128; 133]; [226; 128; 134]; [226; 128; 135];
     [226; 128; 136]; [226; 128; 137]; [226; 128; 138];
     [226; 128; 168]; [226; 128; 169]; [226; 128; 175];
     [226; 129; 159]; [227; 128; 128]].

(** [s] without its prefix [p], when it starts with [p]. *)
Fixpoint without_prefix (p s : list ascii) : option (list ascii) :=
  match p, s with
  | [], _ => Some s
  | c :: p', c' :: s' => if Ascii.eqb c c' then without_prefix p' s' else None
  | _ :: _, [] => None
  end.

(** [s] without the first character of [s], when that is one of
    [spaces]. *)
Definition without_space (spaces : list (list ascii)) (s : list ascii)
    : option (list ascii) :=
  head (omap (fun p => without_prefix p s) spaces).

(** The characters of [spaces] removed from the head of [s]; [n] bounds
    their number. *)
Fixpoint skip_spaces (n : nat) (spaces : list (list ascii)) (s : list ascii)
    : list ascii :=
  match n with
  | O => s
  | S n' =>
      match without_space spaces s with
      | Some r => skip_spaces n' spaces r
      | None => s
      end
  end.

(** [s.lstrip()]. *)
Definition lstrip (s : string) : string :=
  string_of_list_ascii
    (skip_spaces (String.length s) WHITESPACE (list_ascii_of_string s)).

(** [s.rstrip()]: the same from the other end. *)
Definition rstrip (s : string) : string :=
  string_of_list_ascii
    (rev (skip_spaces (String.length s) (map (@rev ascii) WHITESPACE)
                      (rev (list_ascii_of_string s)))).

(** [s.strip()]. *)
Definition strip (s : string) : string := rstrip (lstrip s).

(** [a or b] on strings: the empty string is falsy. *)
Definition or_else (a b : string) : string :=
  match a with EmptyString => b | _ => a end.

(** [", ".join(l)]. *)
Fixpoint join (sep : string) (l : list string) : string :=
  match l with
  | [] => ""
  | [x] => x
  | x :: r => x ++ sep ++ join sep r
  end.

Fixpoint ends_with_slash (s : string) : bool :=
  match s with
  | EmptyString => false
  | String c EmptyString => Ascii.eqb c "/"
  | String _ r => ends_with_slash r
  end.

(** [os.path.join(a, b)] (POSIX). *)
Definition path_join (a b : string) : string :=
  match b with
  | String "/" _ => b
  | _ => if String.eqb a "" || ends_with_slash a then a ++ b else a ++ "/" ++ b
  end.

(** [os.path.basename(p)]: the text after the last slash. *)
Definition basename (p : string) : string :=
  match rsplit_last "/" p with
  | Some (_, b) => b
  | None => p
  end.

Fixpoint all_dots (s : string) : bool :=
  match s with
  | EmptyString => true
  | String c r => Ascii.eqb c "." && all_dots r
  end.

(** [os.path.splitext(b)[0]] for a name [b] without slash: the extension
    starts at the last dot, unless only dots precede it. *)
Definition splitext_root (b : string) : string :=
  match rsplit_last "." b with
  | Some (a, _) => if all_dots a then b else a
  | None => b
  end.

End Py.

(* ===================================================================== *)
(** ** Configuration                                                      *)
(* ===================================================================== *)

Definition UPLOAD_FOLDER : string := "/var/lib/stark/uploads".
Definition WORK_FOLDER : string := "/var/lib/stark/work".
Definition PRINTER_NAME : option string := None.
Definition ALLOWED_EXTENSIONS : gset string := {[ "pdf"; "docx"; "pptx"; "xlsx" ]}.
Definition MAX_FILE_SIZE_MB : Z := 50.
Definition WORKER_COUNT : nat := 1.
Definition CONVERT_TIMEOUT : Z := 60.
Definition PRINT_TIMEOUT : Z := 30.
Definition MAX_CONTENT_LENGTH : Z := MAX_FILE_SIZE_MB * 1024 * 1024.

(* ===================================================================== *)
(** ** Data model                                                         *)
(* ===================================================================== *)

(** The job dictionary built by [upload]. *)
Record job := Job {
  id : string;
  filename : string;
  filepath : string;
  client : string;
  received_at : string
}.

(** The ["status"] of a history entry. *)
Inductive status :=
| queued | processing | conversion_failed | print_failed | printed.

(** The status-specific key of a history entry. *)
Inductive detail :=
| with_client (c : string)
| with_error (msg : string)
| with_printer_response (msg : string).

(** A history entry (the dictionaries passed to [record_history]). *)
Record event := Event {
  timestamp : string;
  job_id : string;
  ev_filename : string;
  ev_status : status;
  ev_detail : detail
}.

(** The uploaded file of a request: its client-side name and the size of
    its stream. *)
Record upload_file := UploadFile {
  up_filename : string;
  up_size : Z
}.

(** A request to [/upload]: [request.files.get('file')],
    [request.remote_addr], and the number of bytes of the multipart body
    besides the content of the file (boundary lines, part headers, other
    fields), of which there is at least one. *)
Record request := Request {
  file_field : option upload_file;
  remote_addr : string;
  framing : positive
}.

(** [request.content_length]: the length of the body, which carries the
    file and its framing. *)
Definition content_length (req : request) : Z :=
  (Z.pos (framing req) +
   match file_field req with
   | Some f => up_size f
   | None => 0
   end)%Z.

(** The body of a response: one of the server's JSON objects, or the HTML
    page that werkzeug makes of an [HTTPException] (its name and its
    description). *)
Inductive body :=
| json_error (msg : string)
| json_queued (job_id : string)
| error_page (name description : string).

Definition response : Type := body * Z.

(** What a primitive that may raise gives back. *)
Inductive io (A : Type) :=
| Done (a : A)
| Fault (msg : string).
Arguments Done {A} a.
Arguments Fault {A} msg.

(** What [subprocess.run] gives back: a completed process (return code,
    standard output, standard error, and the files it wrote), an expired
    timeout, or another exception. *)
Inductive completed :=
| Exited (returncode : Z) (out err : string) (written : list string)
| TimeoutExpired (msg : string)
| SpawnError (msg : string).

Inductive level := INFO | WARNING | ERROR.

(* ===================================================================== *)
(** ** Primitive operations and programs                                  *)
(* ===================================================================== *)

(** The calls the server makes on [job_queue], on [job_history], on the
    file system, on the clock, on the logger and on external processes. *)
Inductive op : Type -> Type :=
| time_millis : op Z                      (* int(time.time() * 1000) *)
| utcnow_iso : op string                  (* datetime.utcnow().isoformat() *)
| logger (lv : level) (msg : string) : op unit
| queue_put (x : option job) : op unit    (* job_queue.put(x) *)
| queue_get : op (option job)             (* job_queue.get(), blocking *)
| queue_task_done : op unit
| history_append (e : event) : op unit    (* job_history.append(e) *)
| history_len : op nat                    (* len(job_history) *)
| history_del0 : op (io unit)             (* del job_history[0] *)
| file_save (f : upload_file) (path : string) : op (io unit)
| mkdtemp (dir : string) : op (io string)
| rmtree (d : string) : op (io unit)
| shutil_copy (src dst : string) : op (io unit)
| subprocess_run (cmd : list string) (timeout : Z) : op completed
| path_exists (p : string) : op bool
| os_remove (p : string) : op (io unit).

(** One performed primitive together with what it returned. *)
Inductive effect :=
| Did {X : Type} (o : op X) (x : X).

(** Finite programs over the primitives. *)
Inductive prog (A : Type) : Type :=
| Ret (a : A)
| Vis {X : Type} (o : op X) (k : X -> prog A).
Arguments Ret {A} a.
Arguments Vis {A X} o k.

Fixpoint pbind {A B : Type} (p : prog A) (f : A -> prog B) : prog B :=
  match p with
  | Ret a => f a
  | Vis o k => Vis o (fun x => pbind (k x) f)
  end.

(** How a block of Python statements ends: normally, by an exception
    (carrying [str(e)]), or by [continue]. *)
Inductive outcome (A : Type) :=
| Normal (a : A)
| Raised (e : string)
| Continue.
Arguments Normal {A} a.
Arguments Raised {A} e.
Arguments Continue {A}.

Definition py (A : Type) : Type := prog (outcome A).

Definition ret {A} (a : A) : py A := Ret (Normal a).
Definition raise {A} (e : string) : py A := Ret (Raised e).
Definition continue {A} : py A := Ret Continue.

Definition bind {A B} (m : py A) (f : A -> py B) : py B :=
  pbind m (fun r =>
    match r with
    | Normal a => f a
    | Raised e => Ret (Raised e)
    | Continue => Ret Continue
    end).

(** Statement sequencing is written [x ← m; k] and [m;; k]. *)
#[global] Instance py_ret : MRet py := @ret.
#[global] Instance py_bind : MBind py := fun A B f m => bind m f.

(** A primitive that cannot raise. *)
Definition call {X} (o : op X) : py X := Vis o (fun x => Ret (Normal x)).

(** A primitive that raises on a fault. *)
Definition call_io {X} (o : op (io X)) : py X :=
  Vis o (fun r => match r with Done x => Ret (Normal x) | Fault m => Ret (Raised m) end).

(** [try: body  except Exception as e: handler(e)]. *)
Definition try_except {A} (body : py A) (handler : string -> py A) : py A :=
  pbind body (fun r =>
    match r with
    | Raised e => handler e
    | _ => Ret r
    end).

(** [try: body  finally: fin]: [fin] runs however [body] ends; the way
    [body] ended is kept unless [fin] itself does not end normally. *)
Definition try_finally {A} (body : py A) (fin : py unit) : py A :=
  pbind body (fun r =>
    pbind fin (fun r' =>
      match r' with
      | Normal _ => Ret r
      | Raised e => Ret (Raised e)
      | Continue => Ret Continue
      end)).

(** [with tempfile.TemporaryDirectory(dir=dir) as tmpdir: body]: the
    directory is created, and removed again however [body] ends. *)
Definition with_TemporaryDirectory {A} (dir : string) (body : string -> py A) : py A :=
  tmpdir ← call_io (mkdtemp dir);
  pbind (body tmpdir) (fun r =>
    pbind (call_io (rmtree tmpdir)) (fun r' =>
      match r' with
      | Raised e => Ret (Raised e)
      | _ => Ret r
      end)).

(* ===================================================================== *)
(** ** The shared state and the outside world                             *)
(* ===================================================================== *)

(** The process-wide objects of the server ([job_queue], [job_history]),
    the files that exist, and the number of primitives performed so far. *)
Record world := World {
  job_queue : list (option job);
  job_history : list event;
  files : gset string;
  ticks : nat
}.

(** What the server does not control, as functions of the moment ([ticks])
    at which it is asked: the clock, the name [mkdtemp] picks, a fault of
    the file system that the set of existing files does not explain
    (permissions, a full disk), whether a write that fails at that moment
    has already created its destination, and what an external process
    does.  [secure_filename] is werkzeug's. *)
Record environment := Environment {
  secure_filename : string -> string;
  clock_ms : nat -> Z;
  clock_iso : nat -> string;
  tmp_name : nat -> string;
  io_fault : nat -> option string;
  leaves_partial : nat -> bool;
  spawn : nat -> list string -> Z -> completed
}.

(** [p] is the directory [d] or lies below it. *)
Definition under (d p : string) : bool :=
  String.eqb p d || String.prefix (d ++ "/") p.

Definition set_queue (q : list (option job)) (w : world) : world :=
  World q (job_history w) (files w) (ticks w).
Definition set_history (h : list event) (w : world) : world :=
  World (job_queue w) h (files w) (ticks w).
Definition set_files (f : gset string) (w : world) : world :=
  World (job_queue w) (job_history w) f (ticks w).
Definition tick (w : world) : world :=
  World (job_queue w) (job_history w) (files w) (S (ticks w)).

(** A file-system primitive: it faults when the environment says so, and
    otherwise does [action]. *)
Definition guarded {A} (E : environment) (w : world)
    (action : io A * world) : io A * world :=
  match io_fault E (ticks w) with
  | Some msg => (Fault msg, w)
  | None => action
  end.

(** A primitive that writes the file [path]: when the environment makes
    it fault, the file may be left behind, partly written. *)
Definition writing {A} (E : environment) (w : world) (path : string)
    (action : io A * world) : io A * world :=
  match io_fault E (ticks w) with
  | Some msg =>
      (Fault msg,
       if leaves_partial E (ticks w) then set_files ({[path]} ∪ files w) w else w)
  | None => action
  end.

(** What one primitive returns and how it changes the world; [None] when
    the caller blocks ([job_queue.get()] on an empty queue). *)
Definition perform (E : environment) {X : Type} (o : op X) (w : world)
    : option (X * world) :=
  match o in op X return option (X * world) with
  | time_millis => Some (clock_ms E (ticks w), tick w)
  | utcnow_iso => Some (clock_iso E (ticks w), tick w)
  | logger _ _ => Some (tt, tick w)
  | queue_put x => Some (tt, tick (set_queue (job_queue w ++ [x]) w))
  | queue_get =>
      match job_queue w with
      | [] => None
      | x :: q => Some (x, tick (set_queue q w))
      end
  | queue_task_done => Some (tt, tick w)
  | history_append e => Some (tt, tick (set_history (job_history w ++ [e]) w))
  | history_len => Some (length (job_history w), tick w)
  | history_del0 =>
      match job_history w with
      | [] => Some (Fault "list assignment index out of range", tick w)
      | _ :: h => Some (Done tt, tick (set_history h w))
      end
  | file_save _ path =>
      let '(r, w') := writing E w path (Done tt, set_files ({[path]} ∪ files w) w) in
      Some (r, tick w')
  | mkdtemp dir =>
      let d := Py.path_join dir (tmp_name E (ticks w)) in
      let '(r, w') := guarded E w
        (if bool_decide (d ∈ files w)
         then (Fault "No usable temporary directory name found", w)
         else (Done d, set_files ({[d]} ∪ files w) w)) in
      Some (r, tick w')
  | rmtree d =>
      let '(r, w') := guarded E w
        (Done tt, set_files (filter (fun p => under d p = false) (files w)) w) in
      Some (r, tick w')
  | shutil_copy src dst =>
      let '(r, w') :=
        if bool_decide (src ∈ files w)
        then writing E w dst (Done tt, set_files ({[dst]} ∪ files w) w)
        else guarded E w (Fault "No such file or directory", w) in
      Some (r, tick w')
  | subprocess_run cmd timeout =>
      let c := spawn E (ticks w) cmd timeout in
      match c with
      | Exited _ _ _ written =>
          Some (c, tick (set_files (list_to_set written ∪ files w) w))
      | _ => Some (c, tick w)
      end
  | path_exists p => Some (bool_decide (p ∈ files w), tick w)
  | os_remove p =>
      let '(r, w') := guarded E w
        (if bool_decide (p ∈ files w)
         then (Done tt, set_files (files w ∖ {[p]}) w)
         else (Fault "No such file or directory", w)) in
      Some (r, tick w')
  end.

(** Sequential execution: the value, the final world and the primitives
    performed, oldest first; [None] when the program blocks. *)
Fixpoint exec (E : environment) {A : Type} (p : prog A) (w : world)
    : option (A * world * list effect) :=
  match p with
  | Ret a => Some (a, w, [])
  | Vis o k =>
      match perform E o w with
      | None => None
      | Some (x, w') =>
          match exec E (k x) w' with
          | None => None
          | Some (a, w'', d) => Some (a, w'', Did o x :: d)
          end
      end
  end.

(* ===================================================================== *)
(** ** Utility helpers                                                    *)
(* ===================================================================== *)

(** [allowed_file(filename)]. *)
Definition allowed_file (filename : string) : bool :=
  let ext := Py.rsplit1 filename in
  (length ext =? 2)%nat &&
  match ext !! 1%nat with
  | Some e => bool_decide (Py.lower e ∈ ALLOWED_EXTENSIONS)
  | None => false
  end.

(** [run_subprocess(cmd, timeout)]: [(returncode, stdout, stderr)]. *)
Definition run_subprocess (cmd : list string) (timeout : Z) : py (Z * string * string) :=
  c ← call (subprocess_run cmd timeout);
  match c with
  | Exited returncode out err _ => ret (returncode, out, err)
  | TimeoutExpired e => ret ((-1)%Z, "", "Timeout expired: " ++ e)
  | SpawnError e => ret ((-1)%Z, "", e)
  end.

(** [convert_to_pdf(input_path, out_dir)]. *)
Definition convert_to_pdf (input_path out_dir : string) : py string :=
  let cmd := ["libreoffice"; "--headless"; "--invisible";
              "--convert-to"; "pdf"; "--outdir"; out_dir; input_path] in
  r ← run_subprocess cmd CONVERT_TIMEOUT;
  let '(code, out, err) := r in
  if negb (code =? 0)%Z then
    raise ("LibreOffice failed: " ++ Py.or_else err out)
  else
    let base := Py.splitext_root (Py.basename input_path) in
    let pdf_path := Py.path_join out_dir (base ++ ".pdf") in
    present ← call (path_exists pdf_path);
    if negb present then
      raise ("Conversion did not produce PDF: expected " ++ pdf_path)
    else ret pdf_path.

(** The command line of [print_pdf]. *)
Definition lp_command (pdf_path : string) : list string :=
  ["lp"] ++
  match PRINTER_NAME with
  | Some name => if String.eqb name "" then [] else ["-d"; name]
  | None => []
  end ++ [pdf_path].

(** [print_pdf(pdf_path)]: [(success_bool, message)]. *)
Definition print_pdf (pdf_path : string) : py (bool * string) :=
  r ← run_subprocess (lp_command pdf_path) PRINT_TIMEOUT;
  let '(code, out, err) := r in
  if negb (code =? 0)%Z then ret (false, Py.or_else err out)
  else ret (true, Py.strip out).

(** [record_history(entry)]: append, then drop the oldest entry when more
    than 200 are held. *)
Definition record_history (entry : event) : py unit :=
  call (history_append entry);;
  n ← call history_len;
  if (200 <? n)%nat then call_io history_del0 else ret tt.

(** [datetime.utcnow().isoformat() + "Z"]. *)
Definition utcnow_Z : py string :=
  t ← call utcnow_iso; ret (t ++ "Z").

(* ===================================================================== *)
(** ** Worker thread                                                      *)
(* ===================================================================== *)

Section Server.

Variable E : environment.

(** The statements inside [try:] of [worker_loop], for the job taken
    from the queue. *)
Definition process (worker_id : Z) (job : job) : py unit :=
  call (logger INFO ("Worker " ++ Py.str_of_int worker_id ++ " processing job "
                     ++ id job ++ " file=" ++ filename job));;
  ts ← utcnow_Z;
  record_history (Event ts (id job) (filename job) processing (with_client (client job)));;
  with_TemporaryDirectory WORK_FOLDER (fun tmpdir =>
    let tmp_input := Py.path_join tmpdir (secure_filename E (filename job)) in
    call_io (shutil_copy (filepath job) tmp_input);;
    ext ← match Py.rsplit1 (filename job) !! 1%nat with
          | Some e => ret (Py.lower e)
          | None => raise "list index out of range"
          end;
    pdf_path ←
      (if String.eqb ext "pdf" then ret tmp_input
       else
         try_except (convert_to_pdf tmp_input tmpdir) (fun e =>
           call (logger ERROR "Conversion failed");;
           ts ← utcnow_Z;
           record_history
             (Event ts (id job) (filename job) conversion_failed (with_error e));;
           continue));
    r ← print_pdf pdf_path;
    let '(ok, msg) := r in
    if ok : bool then
      call (logger INFO ("Job " ++ id job ++ " printed successfully."));;
      ts ← utcnow_Z;
      record_history
        (Event ts (id job) (filename job) printed (with_printer_response msg))
    else
      call (logger ERROR ("Job " ++ id job ++ " print failed: " ++ msg));;
      ts ← utcnow_Z;
      record_history
        (Event ts (id job) (filename job) print_failed (with_error msg))).

(** The [finally:] clause of [worker_loop]. *)
Definition cleanup (job : job) : py unit :=
  try_except (call_io (os_remove (filepath job))) (fun _ => ret tt);;
  call queue_task_done.

(** The [try: ... except Exception: ... finally: ...] statement of
    [worker_loop]. *)
Definition handle_job (worker_id : Z) (job : job) : py unit :=
  try_finally
    (try_except (process worker_id job) (fun _ =>
       call (logger ERROR "Unhandled exception in worker")))
    (cleanup job).

(** How one turn of [while True:] ends. *)
Inductive loop_ctl := Break | Again.

(** A loop body that ended normally or by [continue] is followed by the
    next turn. *)
Definition end_of_turn (body : py unit) : py loop_ctl :=
  pbind body (fun r =>
    match r with
    | Normal _ | Continue => Ret (Normal Again)
    | Raised e => Ret (Raised e)
    end).

(** One turn of the [while True:] loop of [worker_loop]. *)
Definition worker_turn (worker_id : Z) : py loop_ctl :=
  job ← call queue_get;
  match job with
  | None =>
      call (logger INFO ("Worker " ++ Py.str_of_int worker_id
                         ++ " received shutdown signal."));;
      ret Break
  | Some job => end_of_turn (handle_job worker_id job)
  end.

(** [while True: body], for at most [fuel] turns. *)
Fixpoint while_True (fuel : nat) (body : py loop_ctl) : py unit :=
  match fuel with
  | O => ret tt
  | S n =>
      c ← body;
      match c with
      | Break => ret tt
      | Again => while_True n body
      end
  end.

(** [worker_loop(worker_id)], for at most [fuel] turns. *)
Definition worker_loop (fuel : nat) (worker_id : Z) : py unit :=
  call (logger INFO ("Worker " ++ Py.str_of_int worker_id ++ " started."));;
  while_True fuel (worker_turn worker_id).

(* =================================================================== *)
(** ** Flask endpoints                                                  *)
(* =================================================================== *)

(** What Flask answers when a view raises werkzeug's
    [RequestEntityTooLarge]: the page of that exception, with status
    413. *)
Definition REQUEST_ENTITY_TOO_LARGE : response :=
  (error_page "Request Entity Too Large"
              "The data value transmitted exceeds the capacity limit.",
   413%Z).

(** [upload()], for the request being served: what the request is
    answered with.  The first access to [request.files] parses the form;
    there werkzeug raises [RequestEntityTooLarge] when the body is longer
    than [app.config['MAX_CONTENT_LENGTH']], nothing of the view is run
    beyond that point, and Flask answers with that exception. *)
Definition upload (req : request) : py response :=
  if (MAX_CONTENT_LENGTH <? content_length req)%Z then ret REQUEST_ENTITY_TOO_LARGE
  else
  match file_field req with
  | None => ret (json_error "No file part", 400%Z)
  | Some f =>
      if String.eqb (up_filename f) "" then
        ret (json_error "No selected file", 400%Z)
      else
        let filename := secure_filename E (up_filename f) in
        if negb (allowed_file filename) then
          ret (json_error "Unsupported file type. Allowed: docx, pdf, pptx, xlsx", 400%Z)
        else
          let size := up_size f in
          if (MAX_CONTENT_LENGTH <? size)%Z then
            ret (json_error ("File too large (> " ++ Py.str_of_int MAX_FILE_SIZE_MB
                             ++ " MB)"), 413%Z)
          else
            timestamp ← call time_millis;
            let unique_name := Py.str_of_int timestamp ++ "_" ++ filename in
            let save_path := Py.path_join UPLOAD_FOLDER unique_name in
            saved ← try_except (call_io (file_save f save_path);; ret true) (fun _ =>
                      call (logger ERROR "Failed to save uploaded file");;
                      ret false);
            if negb saved then ret (json_error "Failed to save file", 500%Z)
            else
              let job_id := "job-" ++ Py.str_of_int timestamp in
              received ← utcnow_Z;
              let job := Job job_id filename save_path (remote_addr req) received in
              call (queue_put (Some job));;
              record_history
                (Event (received_at job) job_id filename queued (with_client (client job)));;
              call (logger INFO ("Queued job " ++ job_id ++ " from " ++ client job
                                 ++ " -> " ++ filename));;
              ret (json_queued job_id, 200%Z)
  end.

(** [history()]: the last 100 entries. *)
Definition history (w : world) : list event :=
  drop (length (job_history w) - 100) (job_history w).

(** [for _ in range(n): job_queue.put(None)]. *)
Fixpoint put_sentinels (n : nat) : py unit :=
  match n with
  | O => ret tt
  | S n' => call (queue_put None);; put_sentinels n'
  end.

(** [shutdown_workers()]: one sentinel per worker. *)
Definition shutdown_workers : py unit :=
  call (logger INFO "Shutting down workers...");;
  put_sentinels WORKER_COUNT.

(* =================================================================== *)
(** ** Threads                                                          *)
(* =================================================================== *)

(** The running server: the shared objects, the requests being served
    (what is left of each handler, in order of arrival), the worker
    threads (the worker's number and what is left of its current turn of
    the loop), and every primitive performed so far, oldest first. *)
Record server := Server {
  shared : world;
  handlers : list (py response);
  workers : list (Z * py loop_ctl);
  performed : list effect
}.

(** What the scheduler may do next: accept a request, let the handler of
    the [i]-th request perform its next primitive, or let the [i]-th
    worker perform its next primitive. *)
Inductive action :=
| Arrive (req : request)
| StepHandler (i : nat)
| StepWorker (i : nat).

(** The module body: empty queue and history, and [WORKER_COUNT] worker
    threads started, numbered from 1. *)
Definition start_worker (i : nat) : Z * py loop_ctl :=
  let worker_id := (Z.of_nat i + 1)%Z in
  (worker_id,
   call (logger INFO ("Worker " ++ Py.str_of_int worker_id ++ " started."));;
   worker_turn worker_id).

Definition boot (fs : gset string) : server :=
  Server (World [] [] fs 0) [] (map start_worker (seq 0 WORKER_COUNT)) [].

(** One primitive of a thread; a blocked thread stays where it is. *)
Definition step_thread {A} (p : py A) (s : server)
    : option (py A * world * effect) :=
  match p with
  | Ret _ => None
  | Vis o k =>
      match perform E o (shared s) with
      | None => None
      | Some (x, w') => Some (k x, w', Did o x)
      end
  end.

Definition step (a : action) (s : server) : server :=
  match a with
  | Arrive req =>
      Server (shared s) (handlers s ++ [upload req]) (workers s) (performed s)
  | StepHandler i =>
      match handlers s !! i with
      | Some p =>
          match step_thread p s with
          | Some (p', w', e) =>
              Server w' (<[i := p']> (handlers s)) (workers s) (performed s ++ [e])
          | None => s
          end
      | None => s
      end
  | StepWorker i =>
      match workers s !! i with
      | Some (worker_id, Ret (Normal Again)) =>
          Server (shared s) (handlers s)
                 (<[i := (worker_id, worker_turn worker_id)]> (workers s))
                 (performed s)
      | Some (worker_id, p) =>
          match step_thread p s with
          | Some (p', w', e) =>
              Server w' (handlers s) (<[i := (worker_id, p')]> (workers s))
                     (performed s ++ [e])
          | None => s
          end
      | None => s
      end
  end.

(** The server after the scheduler's choices [sched], first choice
    first. *)
Definition run_schedule (sched : list action) (s : server) : server :=
  fold_left (fun s a => step a s) sched s.

End Server.

(* ===================================================================== *)
(** ** Observations on the primitives performed                           *)
(* ===================================================================== *)

Definition is_terminal (st : status) : bool :=
  match st with
  | printed | print_failed | conversion_failed => true
  | queued | processing => false
  end.

(** The entry a primitive appended to the history, if it is an append. *)
Definition appended (e : effect) : option event :=
  match e with
  | Did o _ =>
      match o with
      | history_append ev => Some ev
      | _ => None
      end
  end.

(** The item a primitive put on the queue, if it is a [put]. *)
Definition enqueued (e : effect) : option (option job) :=
  match e with
  | Did o _ =>
      match o with
      | queue_put x => Some x
      | _ => None
      end
  end.

(** The item a primitive took from the queue, if it is a [get]. *)
Definition dequeued (e : effect) : option (option job) :=
  match e with
  | Did o x =>
      match o in op X return X -> option (option job) with
      | queue_get => fun x => Some x
      | _ => fun _ => None
      end x
  end.

(** The command, the deadline and the result of a [subprocess.run]. *)
Definition spawned (e : effect) : option (list string * Z * completed) :=
  match e with
  | Did o x =>
      match o in op X return X -> option (list string * Z * completed) with
      | subprocess_run cmd timeout => fun c => Some (cmd, timeout, c)
      | _ => fun _ => None
      end x
  end.

(** The path given to [os.remove] and whether it raised. *)
Definition removal (e : effect) : option (string * io unit) :=
  match e with
  | Did o x =>
      match o in op X return X -> option (string * io unit) with
      | os_remove p => fun r => Some (p, r)
      | _ => fun _ => None
      end x
  end.

(** What [mkdtemp] returned. *)
Definition tmp_creation (e : effect) : option (io string) :=
  match e with
  | Did o x =>
      match o in op X return X -> option (io string) with
      | mkdtemp _ => fun r => Some r
      | _ => fun _ => None
      end x
  end.

(** The directory whose tree was removed and whether that raised. *)
Definition tree_removal (e : effect) : option (string * io unit) :=
  match e with
  | Did o x =>
      match o in op X return X -> option (string * io unit) with
      | rmtree d => fun r => Some (d, r)
      | _ => fun _ => None
      end x
  end.

(** Source, destination and result of a [shutil.copy]. *)
Definition copying (e : effect) : option (string * string * io unit) :=
  match e with
  | Did o x =>
      match o in op X return X -> option (string * string * io unit) with
      | shutil_copy src dst => fun r => Some (src, dst, r)
      | _ => fun _ => None
      end x
  end.

(** Destination and result of an [f.save]. *)
Definition saving (e : effect) : option (string * io unit) :=
  match e with
  | Did o x =>
      match o in op X return X -> option (string * io unit) with
      | file_save _ path => fun r => Some (path, r)
      | _ => fun _ => None
      end x
  end.

(** The message a primitive logged. *)
Definition logged (e : effect) : option string :=
  match e with
  | Did o _ =>
      match o with
      | logger _ msg => Some msg
      | _ => None
      end
  end.

Definition appends (d : list effect) : list event := omap appended d.
Definition terminal_events (d : list effect) : list event :=
  List.filter (fun ev => is_terminal (ev_status ev)) (appends d).
Definition puts (d : list effect) : list (option job) := omap enqueued d.
Definition gets (d : list effect) : list (option job) := omap dequeued d.
Definition runs (d : list effect) : list (list string * Z * completed) := omap spawned d.
Definition removals (d : list effect) : list (string * io unit) := omap removal d.
Definition tmp_creations (d : list effect) : list (io string) := omap tmp_creation d.
Definition tree_removals (d : list effect) : list (string * io unit) := omap tree_removal d.
Definition copies (d : list effect) : list (string * string * io unit) := omap copying d.
Definition saves (d : list effect) : list (string * io unit) := omap saving d.
Definition log_messages (d : list effect) : list string := omap logged d.

(** The program a command line starts. *)
Definition program (cmd : list string) : option string := head cmd.

(** [p] runs to completion from [w], and [Q] holds of its value, of the
    final world and of the primitives it performed. *)
Definition after {A} (E : environment) (p : prog A) (w : world)
    (Q : A -> world -> list effect -> Prop) : Prop :=
  match exec E p w with
  | Some (a, w', d) => Q a w' d
  | None => False
  end.

(** Only [job_queue.get()] can block. *)
Definition blocking {X} (o : op X) : bool :=
  match o with
  | queue_get => true
  | _ => false
  end.

(** The primitives that change [job_queue] or [job_history]. *)
Definition on_shared {X} (o : op X) : bool :=
  match o with
  | queue_put _ | queue_get | history_append _ | history_del0 => true
  | _ => false
  end.

(** The reasons for which a request to [/upload] is turned down: a body
    above the size limit, no [file] field, an empty file name, an
    extension that is not allowed, a file above the size limit, or a
    failure to save the file (seen in the primitives [d] the handler
    performed). *)
Definition rejected (E : environment) (req : request) (d : list effect) : Prop :=
  (MAX_CONTENT_LENGTH < content_length req)%Z
  \/ match file_field req with
     | None => True
     | Some f =>
         up_filename f = ""
         \/ allowed_file (secure_filename E (up_filename f)) = false
         \/ (MAX_CONTENT_LENGTH < up_size f)%Z
         \/ exists path m, (path, Fault m) ∈ saves d
     end.

(** [record_history] called on each entry of [es] in turn. *)
Fixpoint record_all (es : list event) : py unit :=
  match es with
  | [] => ret tt
  | e :: r => record_history e;; record_all r
  end.

(** What [record_history] leaves in [job_history]. *)
Definition capped (h : list event) : list event :=
  if (200 <? length h)%nat then tail h else h.

(** The primitives [record_history e] performs on a history [h]. *)
Definition record_trace (h : list event) (e : event) : list effect :=
  Did (history_append e) tt
  :: Did history_len (length (h ++ [e])%list)
  :: (if (200 <? length (h ++ [e])%list)%nat then [Did history_del0 (Done tt)] else []).

(* ===================================================================== *)
(** ** Concrete scenarios                                                 *)
(* ===================================================================== *)

(** An outside world whose clock stands still, in which [mkdtemp] always
    picks the same name, with the given file-system faults and external
    programs. *)
Definition scenario (fault : nat -> option string)
    (program_run : nat -> list string -> completed) : environment :=
  Environment (fun name => name)
              (fun _ => 1700000000000%Z)
              (fun _ => "2024-01-01T12:00:00")
              (fun _ => "tmpk3v9x2")
              fault
              (fun _ => true)
              (fun t cmd _ => program_run t cmd).

Definition no_fault : nat -> option string := fun _ => None.

(** A converter that writes the PDF next to its input and a spooler that
    accepts every file. *)
Definition programs_succeed (_ : nat) (cmd : list string) : completed :=
  match cmd with
  | "lp" :: _ => Exited 0 "request id is Office-42 (1 file(s))" "" []
  | [_; _; _; _; _; _; out_dir; input_path] =>
      Exited 0 "convert" ""
        [Py.path_join out_dir (Py.splitext_root (Py.basename input_path) ++ ".pdf")]
  | _ => SpawnError "No such file or directory"
  end.

(** A converter that cannot load its input. *)
Definition converter_fails (_ : nat) (cmd : list string) : completed :=
  match cmd with
  | "lp" :: _ => Exited 0 "request id is Office-42 (1 file(s))" "" []
  | _ => Exited 1 "" "Error: source file could not be loaded" []
  end.

(** A spooler that does not answer within its deadline. *)
Definition spooler_hangs (t : nat) (cmd : list string) : completed :=
  match cmd with
  | "lp" :: _ => TimeoutExpired "Command lp timed out after 30 seconds"
  | _ => programs_succeed t cmd
  end.

(** The copy into the scratch directory is the sixth primitive of
    [handle_job]; here it fails. *)
Definition copy_faults (t : nat) : option string :=
  if (t =? 5)%nat then Some "No space left on device" else None.

(** The save of the uploaded file is the second primitive of [upload];
    here it fails, after the file has been created. *)
Definition save_faults (t : nat) : option string :=
  if (t =? 1)%nat then Some "No space left on device" else None.

(** An office where everything works. *)
Definition office : environment := scenario no_fault programs_succeed.
(** The same office when the disk is full at the time of the copy. *)
Definition full_disk : environment := scenario copy_faults programs_succeed.
(** The same office when the disk is full at the time of the save. *)
Definition full_upload_disk : environment := scenario save_faults programs_succeed.
(** The same office with a converter that fails. *)
Definition broken_converter : environment := scenario no_fault converter_fails.
(** The same office with a spooler that hangs. *)
Definition stuck_spooler : environment := scenario no_fault spooler_hangs.

(** The entry [upload] records for [report.pdf]. *)
Definition report_queued : event :=
  Event "2024-01-01T12:00:00Z" "job-1700000000000" "report.pdf" queued
        (with_client "192.168.1.20").

Definition pdf_job : job :=
  Job "job-1700000000000" "report.pdf"
      "/var/lib/stark/uploads/1700000000000_report.pdf"
      "192.168.1.20" "2024-01-01T12:00:00Z".

Definition docx_job : job :=
  Job "job-1700000000000" "letter.docx"
      "/var/lib/stark/uploads/1700000000000_letter.docx"
      "192.168.1.20" "2024-01-01T12:00:00Z".

(** The world in which a worker has just taken [j] from the queue: its
    uploaded file exists. *)
Definition holding (j : job) : world := World [] [] {[filepath j]} 0.

(** The identifier [upload] gives to a job at a reading of the clock. *)
Definition job_id_at (timestamp : Z) : string := "job-" ++ Py.str_of_int timestamp.

(** The server's queue holding [j] and then the sentinel, [j]'s file on
    disk. *)
Definition last_job (j : job) : world := World [Some j; None] [] {[filepath j]} 0.

(** Two requests served one after the other. *)
Definition upload_twice (E : environment) (r1 r2 : request) : py (response * response) :=
  a ← upload E r1; b ← upload E r2; mret (a, b).

Definition report_request : request :=
  Request (Some (UploadFile "report.pdf" 120000)) "192.168.1.20" 187.

Definition letter_request : request :=
  Request (Some (UploadFile "letter.docx" 48000)) "192.168.1.31" 232.

(** The server right after start: nothing queued, nothing recorded, no
    file on disk, no primitive performed. *)
Definition fresh_world : world := World [] [] ∅ 0.

(** A schedule on which the worker takes a job from the queue while the
    handler that put it there has not yet recorded it: the request
    arrives; its handler reads the clock, saves the file, reads the clock
    and puts the job on the queue; the worker logs its start, takes the
    job, logs it, reads the clock and appends its [processing] entry; only
    then does the handler append its [queued] entry. *)
Definition worker_overtakes : list action :=
  [Arrive report_request;
   StepHandler 0; StepHandler 0; StepHandler 0; StepHandler 0;
   StepWorker 0; StepWorker 0; StepWorker 0; StepWorker 0; StepWorker 0;
   StepHandler 0].

(** The job identifiers of the jobs in a queue. *)
Definition queued_ids (q : list (option job)) : list string :=
  omap (fun x => id <$> x) q.

(** What the ledger shows: status and job identifier of each entry. *)
Definition ledger_view (h : list event) : list (status * string) :=
  map (fun ev => (ev_status ev, job_id ev)) h.

(* ===================================================================== *)
(** ** What a thread may still do                                         *)
(* ===================================================================== *)

Definition is_processing (st : status) : bool :=
  match st with
  | processing => true
  | _ => false
  end.

(** A primitive that neither takes an item from the queue nor appends a
    [processing] entry. *)
Definition calm {X} (o : op X) : bool :=
  match o with
  | queue_get => false
  | history_append e => negb (is_processing (ev_status e))
  | _ => true
  end.

(** How the ledger names a job. *)
Definition label (j : job) : string * string := (id j, filename j).
Definition ev_label (ev : event) : string * string := (job_id ev, ev_filename ev).

(** A program all of whose primitives are calm. *)
Fixpoint quiet {A : Type} (p : prog A) : Prop :=
  match p with
  | Ret _ => True
  | Vis o k => calm o = true /\ forall x, quiet (k x)
  end.

(** The primitive that appends the [processing] entry of [j]. *)
Definition announces {X} (j : job) (o : op X) : Prop :=
  match o with
  | history_append e => ev_status e = processing /\ ev_label e = label j
  | _ => False
  end.

(** A program that, whatever the primitives return, appends the
    [processing] entry of [j] once, after calm primitives only, and is
    quiet from then on. *)
Fixpoint owes {A : Type} (j : job) (p : prog A) : Prop :=
  match p with
  | Ret _ => False
  | Vis o k =>
      (announces j o /\ forall x, quiet (k x))
      \/ (calm o = true /\ forall x, owes j (k x))
  end.

(** What the continuation of a [get] must be: quiet after a sentinel, and
    owing the [processing] entry of the job otherwise. *)
Definition serves {A X} (o : op X) : (X -> prog A) -> Prop :=
  match o in op X return (X -> prog A) -> Prop with
  | queue_get => fun k => quiet (k None) /\ forall j, owes j (k (Some j))
  | _ => fun _ => False
  end.

(** A program that, after calm primitives only, takes an item from the
    queue and serves it. *)
Fixpoint waiting {A : Type} (p : prog A) : Prop :=
  match p with
  | Ret _ => False
  | Vis o k => serves o k \/ (calm o = true /\ forall x, waiting (k x))
  end.

(** The jobs taken from the queue, in order. *)
Definition taken (d : list effect) : list job := omap (fun x => x) (gets d).

(** The labels of the [processing] entries appended, in order. *)
Definition processed (d : list effect) : list (string * string) :=
  map ev_label (List.filter (fun ev => is_processing (ev_status ev)) (appends d)).

(** Where a worker stands with respect to the primitives performed so
    far: every job taken has its [processing] entry, or every job but the
    last one taken, which the worker owes. *)
Definition worker_inv {A} (p : prog A) (d : list effect) : Prop :=
  ((waiting p \/ quiet p) /\ processed d = map label (taken d))
  \/ (exists j, owes j p /\ (processed d ++ [label j])%list = map label (taken d)).

(** What holds of the server with one worker, whatever the schedule. *)
Definition server_inv (s : server) : Prop :=
  (gets (performed s) ++ job_queue (shared s))%list = puts (performed s)
  /\ Forall quiet (handlers s)
  /\ exists worker_id p,
       workers s = [(worker_id, p)] /\ worker_inv p (performed s).

(* ===================================================================== *)
(** ** The rest of the server: address filter, dispatch, read-only views  *)
(* ===================================================================== *)

(** Whether the character [c] occurs in [s]. *)
Fixpoint has_char (c : ascii) (s : string) : bool :=
  match s with
  | EmptyString => false
  | String c' r => Ascii.eqb c' c || has_char c r
  end.

Definition ALLOWED_NETWORKS : list string := ["192.168.0.0/16"; "10.0.0.0/8"].

(** What the server uses of Python's [ipaddress] module: [ip_address] and
    [ip_network] ([None] when they raise) and the test [ip in network]. *)
Record ipaddress := Ipaddress {
  address : Type;
  network : Type;
  ip_address : string -> option address;
  ip_network : string -> option network;
  contains : network -> address -> bool
}.

(** The [for net in ...] loop of [ip_allowed]: a network that does not
    parse is skipped. *)
Fixpoint in_some_network (L : ipaddress) (ip : address L) (nets : list string) : bool :=
  match nets with
  | [] => false
  | net :: rest =>
      match ip_network L net with
      | Some n => if contains L n ip then true else in_some_network L ip rest
      | None => in_some_network L ip rest
      end
  end.

(** [ip_allowed(remote_addr)]. *)
Definition ip_allowed (L : ipaddress) (remote_addr : string) : bool :=
  match ip_address L remote_addr with
  | None => false
  | Some ip => in_some_network L ip ALLOWED_NETWORKS
  end.

(** What a request is answered with: the response of an [abort], or the
    value a view function returned. *)
Inductive reply :=
| Aborted (code : Z) (description : string)
| Answered (r : response).

(** [restrict_remote()], run before each request: [None] to go on to the
    view function, or the response of [abort(403, ...)]. *)
Definition restrict_remote (L : ipaddress) (req : request) : py (option reply) :=
  let remote := remote_addr req in
  if negb (ip_allowed L remote) then
    call (logger WARNING ("Denied connection from " ++ remote));;
    mret (Some (Aborted 403 "Forbidden"))
  else mret None.

(** A [POST /upload] as Flask dispatches it: [restrict_remote] first, and
    [upload] unless it aborted. *)
Definition post_upload (L : ipaddress) (E : environment) (req : request) : py reply :=
  before ← restrict_remote L req;
  match before with
  | Some aborted => mret aborted
  | None => r ← upload E req; mret (Answered r)
  end.

(** [health()]: the status, the queue size and the HTTP status code. *)
Definition health (w : world) : string * nat * Z :=
  ("ok", length (job_queue w), 200%Z).


(** The primitives that may change the files. *)
Definition on_files {X} (o : op X) : bool :=
  match o with
  | file_save _ _ | mkdtemp _ | rmtree _ | shutil_copy _ _
  | subprocess_run _ _ | os_remove _ => true
  | _ => false
  end.

(** A job whose file name has no extension. *)
Definition bare_job : job :=
  Job "job-1700000000000" "README"
      "/var/lib/stark/uploads/1700000000000_README"
      "192.168.1.20" "2024-01-01T12:00:00Z".

(** An item of the queue that is a job with an allowed file name. *)
Definition good_item (x : option job) : Prop :=
  exists j, x = Some j /\ allowed_file (filename j) = true.

(** A primitive that puts nothing but such items on the queue. *)
Definition puts_good {X} (o : op X) : Prop :=
  match o with
  | queue_put x => good_item x
  | _ => True
  end.

(** A program all of whose primitives are such. *)
Fixpoint careful {A : Type} (p : prog A) : Prop :=
  match p with
  | Ret _ => True
  | Vis o k => puts_good o /\ forall x, careful (k x)
  end.

(** What holds of the threads of the server and of the items put so far,
    whatever the schedule. *)
Definition careful_server (s : server) : Prop :=
  Forall careful (handlers s)
  /\ Forall (fun t : Z * py loop_ctl => careful t.2) (workers s)
  /\ Forall good_item (puts (performed s)).

(** The server's queue holding [j] alone, [j]'s file on disk. *)
Definition one_queued (j : job) : world := World [Some j] [] {[filepath j]} 0.



(** An office in which the clock advances by one millisecond with every
    primitive. *)
Definition rush_hour : environment :=
  Environment (fun name => name)
              (fun t => (1700000000000 + Z.of_nat t)%Z)
              (fun _ => "2024-01-01T12:00:00")
              (fun _ => "tmpk3v9x2")
              no_fault
              (fun _ => true)
              (fun t cmd _ => programs_succeed t cmd).

(** The [i]-th request arrives and is served to the end, the worker
    standing by: the seven primitives of an accepted upload. *)
Definition served (i : nat) : list action :=
  Arrive report_request :: repeat (StepHandler i) 7.

(** A schedule on which two calls of [record_history] overlap.  199
    requests are served, which leaves 199 entries in the ledger.  The
    handler of the next request runs up to its [append] (200 entries);
    the worker starts, takes the first job and runs up to its own
    [append] (201 entries).  Then each of the two threads reads the
    length of the ledger, 201, before the other has deleted anything, and
    each deletes the first entry. *)
Definition racing_appends : list action :=
  (concat (map served (seq 0 199))
   ++ Arrive report_request :: repeat (StepHandler 199) 5
   ++ repeat (StepWorker 0) 5
   ++ [StepHandler 199; StepWorker 0; StepHandler 199; StepWorker 0])%list.

(** The [queued] entry of the [n]-th of a series of jobs. *)
Definition numbered (n : nat) : event :=
  Event "2024-01-01T12:00:00Z" ("job-" ++ Py.str_of_int (Z.of_nat n)) "report.pdf"
        queued (with_client "192.168.1.20").

(** A server whose ledger holds the entries of the jobs 0 to 149. *)
Definition busy_ledger : world := World [] (map numbered (seq 0 150)) ∅ 0.

(** The job was given up before the conversion stage: the scratch
    directory could not be created, the copy of the input file raised, or
    the file name has no extension to look up. *)
Definition early_fault (j : job) (d : list effect) : Prop :=
  (exists m, Fault m ∈ tmp_creations d)
  \/ (exists src dst m, (src, dst, Fault m) ∈ copies d)
  \/ Py.rsplit1 (filename j) !! 1%nat = None.

(** Whether a primitive puts an item on the queue. *)
Definition is_put {X} (o : op X) : bool :=
  match o with
  | queue_put _ => true
  | _ => false
  end.

(** A program that puts at most [n] items on the queue, whatever its
    primitives return. *)
Fixpoint puts_at_most {A : Type} (n : nat) (p : prog A) : Prop :=
  match p with
  | Ret _ => True
  | Vis o k =>
      if is_put o then 0 < n /\ forall x, puts_at_most (n - 1) (k x)
      else forall x, puts_at_most n (k x)
  end.

(** What holds of the threads of the server and of the number of items
    put so far, whatever the schedule: each handler may still put the
    number of items of its budget, and the workers none. *)
Definition sparing (s : server) : Prop :=
  exists budgets : list nat,
    Forall2 puts_at_most budgets (handlers s)
    /\ Forall (fun t : Z * py loop_ctl => puts_at_most 0 t.2) (workers s)
    /\ length (puts (performed s)) + sum_list budgets = length (handlers s).

(** The requests received on a schedule. *)
Definition arrivals (sched : list action) : nat :=
  length (List.filter (fun a => match a with Arrive _ => true | _ => false end) sched).

(* ===================================================================== *)
(** ** Executing composed programs                                        *)
(* ===================================================================== *)

Lemma exec_pbind E {A B} (p : prog A) (f : A -> prog B) w :
  exec E (pbind p f) w =
  match exec E p w with
  | None => None
  | Some (a, w', d) =>
      match exec E (f a) w' with
      | None => None
      | Some (b, w'', d') => Some (b, w'', (d ++ d')%list)
      end
  end.
Proof.
  revert w. induction p as [a | X o k IH]; intros w; simpl.
  - destruct (exec E (f a) w) as [[[b w''] d'] |]; reflexivity.
  - destruct (perform E o w) as [[x w'] |]; [| reflexivity].
    rewrite IH. destruct (exec E (k x) w') as [[[a w''] d] |]; [| reflexivity].
    destruct (exec E (f a) w'') as [[[b w3] d'] |]; reflexivity.
Qed.

Lemma exec_pbind_assoc E {A B C} (p : prog A) (f : A -> prog B) (g : B -> prog C) w :
  exec E (pbind (pbind p f) g) w = exec E (pbind p (fun x => pbind (f x) g)) w.
Proof.
  revert w. induction p as [a | X o k IH]; intros w; cbn [pbind exec].
  - reflexivity.
  - destruct (perform E o w) as [[x w'] |]; [| reflexivity].
    rewrite IH. reflexivity.
Qed.

Lemma exec_bind E {A B} (m : py A) (f : A -> py B) w :
  exec E (m ≫= f) w =
  match exec E m w with
  | None => None
  | Some (Normal a, w', d) =>
      match exec E (f a) w' with
      | None => None
      | Some (b, w'', d') => Some (b, w'', (d ++ d')%list)
      end
  | Some (Raised e, w', d) => Some (Raised e, w', d)
  | Some (Continue, w', d) => Some (Continue, w', d)
  end.
Proof.
  unfold mbind, py_bind, bind. rewrite exec_pbind.
  destruct (exec E m w) as [[[[a | e |] w'] d] |]; simpl;
    rewrite ?app_nil_r; reflexivity.
Qed.

Lemma after_spec {A} E (p : prog A) w Q :
  after E p w Q <-> exists a w' d, exec E p w = Some (a, w', d) /\ Q a w' d.
Proof.
  unfold after. destruct (exec E p w) as [[[a w'] d] |].
  - split; [intros H; eauto | intros (? & ? & ? & [= <- <- <-] & H); exact H].
  - split; [intros [] | intros (? & ? & ? & [=] & _)].
Qed.

(** Symbolic execution of the primitives and of the control structures,
    leaving arithmetic, strings and sets alone. *)
Ltac run :=
  cbn [exec perform pbind bind mbind py_bind mret py_ret ret raise continue
       call call_io try_except try_finally with_TemporaryDirectory
       set_queue set_history set_files tick
       job_queue job_history files ticks app].

(* ===================================================================== *)
(** ** The history ledger                                                 *)
(* ===================================================================== *)

Lemma exec_record_history E e w :
  exec E (record_history e) w =
    Some (Normal tt,
          World (job_queue w) (capped (job_history w ++ [e])%list) (files w)
                (length (record_trace (job_history w) e) + ticks w),
          record_trace (job_history w) e).
Proof.
  unfold record_history, capped, record_trace. run.
  destruct (200 <? length (job_history w ++ [e])%list)%nat eqn:Hlen; run.
  - destruct (job_history w ++ [e])%list as [| e0 h'] eqn:Hh.
    + destruct (job_history w); discriminate.
    + reflexivity.
  - reflexivity.
Qed.

Lemma exec_record_then E {B} e (f : outcome unit -> prog B) w :
  exec E (pbind (record_history e) f) w =
  match exec E (f (Normal tt))
          (World (job_queue w) (capped (job_history w ++ [e])%list) (files w)
                 (length (record_trace (job_history w) e) + ticks w)) with
  | None => None
  | Some (b, w'', d') => Some (b, w'', (record_trace (job_history w) e ++ d')%list)
  end.
Proof. rewrite exec_pbind, exec_record_history. reflexivity. Qed.

(** Observations that ignore [len] and [del] see one append in
    [record_history]. *)
Lemma omap_record_trace {B} (f : effect -> option B) h e l :
  (forall n, f (Did history_len n) = None) ->
  f (Did history_del0 (Done tt)) = None ->
  omap f (record_trace h e ++ l)%list = omap f (Did (history_append e) tt :: l).
Proof.
  intros Hlen Hdel. unfold record_trace.
  destruct (200 <? length (h ++ [e])%list)%nat; cbn; rewrite Hlen, ?Hdel; reflexivity.
Qed.

Lemma appends_record_trace h e : appends (record_trace h e) = [e].
Proof.
  unfold appends. rewrite <- (app_nil_r (record_trace h e)).
  rewrite omap_record_trace by reflexivity. reflexivity.
Qed.

Lemma capped_recent (l : list event) :
  length l <= 201 -> capped l = drop (length l - 200) l.
Proof.
  intros Hl. unfold capped.
  destruct (200 <? length l)%nat eqn:H.
  - apply Nat.ltb_lt in H. replace (length l - 200) with 1 by lia.
    destruct l; reflexivity.
  - apply Nat.ltb_ge in H. replace (length l - 200) with 0 by lia. reflexivity.
Qed.

(** Keeping the [k] most recent entries can be done in two stages. *)
Lemma recent_app {A} (k : nat) (l es : list A) :
  drop (length (drop (length l - k) l ++ es)%list - k) (drop (length l - k) l ++ es)%list
  = drop (length (l ++ es)%list - k) (l ++ es)%list.
Proof.
  destruct (decide (length l <= k)) as [Hle | Hgt].
  - replace (length l - k) with 0 by lia. rewrite drop_0. reflexivity.
  - rewrite <- (drop_app_le l es (length l - k)) by lia.
    rewrite drop_drop. f_equal.
    rewrite length_drop, !length_app. lia.
Qed.

Lemma exec_record_all E es : forall w,
  length (job_history w) <= 200 ->
  exists w' d,
    exec E (record_all es) w = Some (Normal tt, w', d)
    /\ job_history w' =
         drop (length (job_history w ++ es)%list - 200) (job_history w ++ es)%list
    /\ appends d = es.
Proof.
  induction es as [| e es IH]; intros w Hw.
  - exists w, []. cbn. rewrite app_nil_r.
    replace (length (job_history w) - 200) with 0 by lia. auto.
  - cbn [record_all]. rewrite exec_bind, exec_record_history.
    set (w1 := World _ _ _ _).
    assert (H1 : job_history w1 =
                 drop (length (job_history w ++ [e])%list - 200) (job_history w ++ [e])%list).
    { apply capped_recent. rewrite length_app. cbn. lia. }
    destruct (IH w1) as (w' & d & Hex & Hh & Hd).
    { rewrite H1, length_drop, length_app. cbn. lia. }
    rewrite Hex. eexists _, _. split; [reflexivity |]. split.
    + rewrite Hh, H1, recent_app, <- app_assoc. reflexivity.
    + unfold appends in *. rewrite omap_app, Hd.
      fold (appends (record_trace (job_history w) e)).
      rewrite appends_record_trace. reflexivity.
Qed.

(* ===================================================================== *)
(** ** Following a program primitive by primitive                         *)
(* ===================================================================== *)

Lemma after_normal {A} E (p : py A) w (Q : A -> world -> list effect -> Prop) :
  after E p w (fun r w' d => match r with Normal a => Q a w' d | _ => False end) ->
  exists a w' d, exec E p w = Some (Normal a, w', d) /\ Q a w' d.
Proof.
  unfold after. destruct (exec E p w) as [[[[a | e |] w'] d] |]; try tauto.
  intros H. eauto.
Qed.

(** Only [job_queue.get()] can block. *)
Lemma perform_blocks E {X} (o : op X) w :
  perform E o w = None -> blocking o = true /\ job_queue w = [].
Proof.
  destruct o; cbn; unfold guarded, writing; intros H;
    repeat match type of H with
    | context [match ?x with _ => _ end] => destruct x
    end; try discriminate; auto.
Qed.

Section Rules.

Context {A : Type} (E : environment) (w : world)
        (Q : A -> world -> list effect -> Prop).

Lemma after_ret (a : A) : Q a w [] -> after E (Ret a) w Q.
Proof. intros H. exact H. Qed.

Lemma after_vis {X} (o : op X) (k : X -> prog A) :
  blocking o = false ->
  (forall x w', perform E o w = Some (x, w') ->
     after E (k x) w' (fun a w'' d => Q a w'' (Did o x :: d))) ->
  after E (Vis o k) w Q.
Proof.
  intros Hb H. unfold after in *. cbn [exec].
  destruct (perform E o w) as [[x w'] |] eqn:Hp.
  - specialize (H x w' eq_refl).
    destruct (exec E (k x) w') as [[[a w''] d] |]; exact H.
  - apply perform_blocks in Hp. destruct Hp as [Hp _]. congruence.
Qed.

Lemma after_bind_ret {B} (b : B) (f : B -> prog A) :
  after E (f b) w Q -> after E (pbind (Ret b) f) w Q.
Proof. intros H. exact H. Qed.

Lemma after_bind_vis {B X} (o : op X) (k : X -> prog B) (f : B -> prog A) :
  blocking o = false ->
  (forall x w', perform E o w = Some (x, w') ->
     after E (pbind (k x) f) w' (fun a w'' d => Q a w'' (Did o x :: d))) ->
  after E (pbind (Vis o k) f) w Q.
Proof. intros Hb H. cbn [pbind]. apply after_vis; assumption. Qed.

Lemma after_bind_assoc {B C} (p : prog C) (f : C -> prog B) (g : B -> prog A) :
  after E (pbind p (fun x => pbind (f x) g)) w Q ->
  after E (pbind (pbind p f) g) w Q.
Proof. unfold after. rewrite exec_pbind_assoc. trivial. Qed.

Lemma after_bind_record e (f : outcome unit -> prog A) :
  (forall w1,
     job_queue w1 = job_queue w ->
     job_history w1 = capped (job_history w ++ [e])%list ->
     files w1 = files w ->
     after E (f (Normal tt)) w1
       (fun a w'' d => Q a w'' (record_trace (job_history w) e ++ d)%list)) ->
  after E (pbind (record_history e) f) w Q.
Proof.
  intros H. unfold after in *. rewrite exec_record_then.
  specialize (H (World (job_queue w) (capped (job_history w ++ [e])%list) (files w)
                       (length (record_trace (job_history w) e) + ticks w))
                eq_refl eq_refl eq_refl).
  destruct (exec E (f (Normal tt)) _) as [[[a w''] d] |]; exact H.
Qed.

End Rules.

Lemma after_bind_cleanup {A} E w (Q : A -> world -> list effect -> Prop) j
    (f : outcome unit -> prog A) :
  (forall res w1 x w2,
     perform E (os_remove (filepath j)) w = Some (res, w1) ->
     perform E queue_task_done w1 = Some (x, w2) ->
     after E (f (Normal tt)) w2
       (fun a w'' d =>
          Q a w'' (Did (os_remove (filepath j)) res :: Did queue_task_done x :: d))) ->
  after E (pbind (cleanup j) f) w Q.
Proof.
  intros H. unfold cleanup, mbind, py_bind, bind, try_except, call_io, call, ret.
  cbn [pbind]. apply after_vis; [reflexivity |]. intros res w1 Hres.
  destruct res as [[] | m]; cbn [pbind];
    (apply after_vis; [reflexivity |]); intros [] w2 Hx; cbn [pbind].
  - exact (H _ _ _ _ Hres Hx).
  - exact (H _ _ _ _ Hres Hx).
Qed.

(** The value a stuck program is waiting for. *)
Ltac scrutinee p :=
  lazymatch p with
  | pbind ?q _ => scrutinee q
  | match ?x with _ => _ end => x
  end.

(** One step of the program of the goal. *)
Ltac step_program :=
  let Hp := fresh "Hp" in
  lazymatch goal with
  | |- after _ (Ret _) _ _ => apply after_ret
  | |- after _ (Vis _ _) _ _ =>
      apply after_vis; [reflexivity | intros ? ? Hp]
  | |- after _ (pbind (Ret _) _) _ _ => apply after_bind_ret
  | |- after _ (pbind (Vis _ _) _) _ _ =>
      apply after_bind_vis; [reflexivity | intros ? ? Hp]
  | |- after _ (pbind (pbind _ _) _) _ _ => apply after_bind_assoc
  | |- after _ (pbind (record_history _) _) _ _ =>
      let Hq := fresh "Hqueue" in
      let Hh := fresh "Hhistory" in
      let Hf := fresh "Hfiles" in
      apply after_bind_record; intros ? Hq Hh Hf
  | |- after _ (pbind (cleanup _) _) _ _ =>
      let Hr := fresh "Hremove" in
      apply after_bind_cleanup; intros ? ? ? ? Hr Hp
  | |- after _ ?p _ _ => let x := scrutinee p in destruct x eqn:?
  end;
  cbv beta iota;
  try change (negb (-1 =? 0)%Z) with true;
  cbv beta iota.

(** Write a program with [Ret], [Vis] and [pbind] only. *)
Ltac spell_out :=
  unfold mbind, py_bind, bind, mret, py_ret, ret, raise, continue, call, call_io,
    try_except, try_finally, with_TemporaryDirectory;
  cbv beta iota.

(** Follow every path of a program. *)
Ltac symbolic := repeat progress spell_out; repeat step_program.

(** Compute the observations of a trace. *)
Ltac observe :=
  unfold terminal_events, appends, puts, gets, runs, removals, tmp_creations,
    tree_removals, copies, saves, log_messages;
  repeat first
    [ rewrite omap_record_trace by (intros; reflexivity)
    | progress cbn [omap list_omap appended enqueued dequeued spawned removal
                    tmp_creation tree_removal copying saving logged
                    List.filter is_terminal ev_status job_id ev_filename length] ].

Ltac paths_of_handle_job :=
  apply after_spec;
  unfold handle_job, process, convert_to_pdf, print_pdf, run_subprocess, utcnow_Z;
  symbolic.

(** A membership in an explicit list, taken apart. *)
Ltac among :=
  repeat match goal with
  | H : _ ∈ [] |- _ => apply elem_of_nil in H; destruct H
  | H : _ ∈ _ :: _ |- _ => apply elem_of_cons in H; destruct H as [H | H]
  | H : (_, _) = (_, _) |- _ => injection H as ? ?
  end.

(* ===================================================================== *)
(** ** The worker: one job                                                *)
(* ===================================================================== *)

(** What the primitives of the clean-up do to the files. *)
Lemma perform_os_remove E p w res w' :
  perform E (os_remove p) w = Some (res, w') ->
  files w' ⊆ files w /\ (res = Done tt -> p ∉ files w').
Proof.
  cbn. unfold guarded. destruct (io_fault E (ticks w)).
  - intros [= <- <-]. cbn. split; [reflexivity | discriminate].
  - destruct (bool_decide (p ∈ files w)); intros [= <- <-]; cbn.
    + split; [apply subseteq_difference_l; reflexivity |].
      intros _. rewrite elem_of_difference, elem_of_singleton. tauto.
    + split; [reflexivity | discriminate].
Qed.

Lemma perform_rmtree E d w u w' :
  perform E (rmtree d) w = Some (Done u, w') ->
  forall p, under d p = true -> p ∉ files w'.
Proof.
  cbn. unfold guarded. destruct (io_fault E (ticks w)); [discriminate |].
  intros [= _ <-] p Hp. cbn. rewrite elem_of_filter. intros [Hno _]. congruence.
Qed.

Lemma perform_logger E lv msg w x w' :
  perform E (logger lv msg) w = Some (x, w') -> files w' = files w.
Proof. intros [= <- <-]. reflexivity. Qed.

Lemma perform_task_done E w x w' :
  perform E queue_task_done w = Some (x, w') -> files w' = files w.
Proof. intros [= <- <-]. reflexivity. Qed.

Lemma program_lp p : program (lp_command p) = Some "lp".
Proof. reflexivity. Qed.

Lemma lp_command_default p : lp_command p = ["lp"; p].
Proof. reflexivity. Qed.

(** A membership in an explicit list, shown. *)
Ltac listed :=
  solve [repeat first [apply list_elem_of_here | apply list_elem_of_further]].

(** What is known of the files after the clean-up. *)
Ltac files_facts :=
  repeat match goal with
  | H : perform _ (os_remove _) _ = Some _ |- _ =>
      apply perform_os_remove in H; destruct H as [? ?]
  | H : perform _ queue_task_done _ = Some _ |- _ => apply perform_task_done in H
  | H : perform _ (logger _ _) _ = Some _ |- _ => apply perform_logger in H
  | H : perform _ (rmtree _) _ = Some (Done _, _) |- _ =>
      pose proof (perform_rmtree _ _ _ _ _ H); clear H
  end.

(** X28.  Handling a job always completes, and never by an exception.
    Every terminal history entry appended names this job.  Exactly one
    terminal entry is appended, unless the job was given up before the
    conversion stage (the scratch directory could not be created, the copy
    of the input file raised, or the file name has no extension): then
    none is appended, and the exception is logged by the worker's
    [except Exception] clause.  A failure of the removal of the scratch
    directory after the entry was appended does not change this. *)
Theorem terminal_event_unless_early_fault E wid j w :
  exists r w' d,
    exec E (handle_job E wid j) w = Some (r, w', d)
    /\ (forall e, r <> Raised e)
    /\ (forall ev, ev ∈ terminal_events d ->
          job_id ev = id j /\ ev_filename ev = filename j)
    /\ (early_fault j d ->
          terminal_events d = []
          /\ "Unhandled exception in worker" ∈ log_messages d)
    /\ (~ early_fault j d -> length (terminal_events d) = 1).
Proof.
  unfold early_fault.
  paths_of_handle_job; observe.
  all: split; [discriminate |].
  all: split; [intros ev Hev; among; subst; split; reflexivity |].
  all: split.
  all: try (intros _; reflexivity).
  all: try (intros Hnot; exfalso; apply Hnot;
            first [ left; eexists; listed
                  | right; left; eexists _, _, _; listed
                  | right; right; first [assumption | reflexivity] ]).
  all: try (intros _; split; [reflexivity | listed]).
  all: intros [(m & Hm) | [(src & dst & m & Hm) | Hm]]; among; try discriminate;
         try congruence.
Qed.

(** C3 (removal of the uploaded file).  On every path of the handling of
    a job, [os.remove] is called exactly once, on the job's [filepath]:
    after a successful print, after a failed conversion, after a failed
    print and after an exception caught by the worker alike.  When the
    call does not raise, the file is gone afterwards. *)
Theorem input_file_removed_once E wid j w :
  exists r w' d,
    exec E (handle_job E wid j) w = Some (r, w', d)
    /\ exists res,
         removals d = [(filepath j, res)]
         /\ (res = Done tt -> filepath j ∉ files w').
Proof.
  paths_of_handle_job; observe.
  all: eexists; split; [reflexivity |].
  all: intros Hdone; files_facts.
  all: match goal with
       | Hsame : files ?w2 = files ?w1, Hgone : _ = Done tt -> _ ∉ files ?w1 |- _ ∉ files ?w2 =>
           rewrite Hsame; exact (Hgone Hdone)
       end.
Qed.

(** Closing a path that the hypotheses of a claim exclude, or on which
    the claim is immediate. *)
Ltac excluded :=
  subst;
  try discriminate;
  try match goal with
  | H : program (lp_command _) = Some _ |- _ => rewrite program_lp in H; discriminate H
  | H : program _ = Some _ |- _ => cbn in H; discriminate H
  | H : negb (?rc =? 0)%Z = false, Hne : ?rc <> 0%Z |- _ =>
      apply negb_false_iff, Z.eqb_eq in H; contradiction
  end.

(** C7 (failed conversion).  Whenever the converter, run for a job, exits
    with a non-zero code, the one terminal history entry of the job has
    status [conversion_failed] and carries the converter's diagnostic
    text (its standard error, or its standard output when that is empty),
    and no [lp] command is run for the job. *)
Theorem converter_failure_is_terminal E wid j w :
  exists r w' d,
    exec E (handle_job E wid j) w = Some (r, w', d)
    /\ forall cmd deadline rc out err written,
         (cmd, deadline, Exited rc out err written) ∈ runs d ->
         program cmd = Some "libreoffice" ->
         rc <> 0%Z ->
         (exists ts,
            terminal_events d =
              [Event ts (id j) (filename j) conversion_failed
                     (with_error ("LibreOffice failed: " ++ Py.or_else err out))])
         /\ (forall c, c ∈ runs d -> program c.1.1 <> Some "lp").
Proof.
  paths_of_handle_job; observe.
  all: intros cmd deadline rc out' err' written' Hrun Hprog Hrc.
  all: among; excluded.
  all: split; [eexists; reflexivity |].
  all: intros c Hc; among; subst; cbn; discriminate.
Qed.

(** C8 (print deadline).  Whenever the [lp] command run for a job does
    not finish within its deadline, the one terminal history entry of the
    job has status [print_failed] and its error text starts with
    [Timeout expired:], and the scratch directory created for the job is
    handed to the removal of the [with] statement; when that removal does
    not raise, nothing is left of the directory. *)
Theorem print_timeout_is_terminal E wid j w :
  exists r w' d,
    exec E (handle_job E wid j) w = Some (r, w', d)
    /\ forall cmd deadline m,
         (cmd, deadline, TimeoutExpired m) ∈ runs d ->
         program cmd = Some "lp" ->
         deadline = PRINT_TIMEOUT
         /\ (exists ts,
               terminal_events d =
                 [Event ts (id j) (filename j) print_failed
                        (with_error ("Timeout expired: " ++ m))])
         /\ (exists tmpdir res,
               tmp_creations d = [Done tmpdir]
               /\ tree_removals d = [(tmpdir, res)]
               /\ (res = Done tt ->
                   forall p, under tmpdir p = true -> p ∉ files w')).
Proof.
  paths_of_handle_job; observe.
  all: intros cmd deadline m Hrun Hprog.
  all: among; excluded.
  all: split; [reflexivity |].
  all: split; [eexists; reflexivity |].
  all: eexists _, _; split; [reflexivity |]; split; [reflexivity |].
  all: intros Hdone p Hunder; try discriminate Hdone; files_facts.
  all: match goal with
       | Hsame : files ?w2 = files ?w1, Hsub : files ?w1 ⊆ files ?w0,
         Hgone : forall p, under _ p = true -> p ∉ files ?w0 |- _ ∉ files ?w2 =>
           rewrite Hsame; intros Hin; exact (Hgone p Hunder (Hsub p Hin))
       end.
Qed.

Lemma perform_mkdtemp E dir w r w' :
  perform E (mkdtemp dir) w = Some (r, w') ->
  match r with
  | Done d => files w' = {[d]} ∪ files w
  | Fault _ =>
      io_fault E (ticks w) <> None
      \/ Py.path_join dir (tmp_name E (ticks w)) ∈ files w
  end.
Proof.
  cbn. unfold guarded. destruct (io_fault E (ticks w)).
  - intros [= <- <-]. left. discriminate.
  - destruct (bool_decide _) eqn:Hd; intros [= <- <-]; cbn.
    + right. apply bool_decide_eq_true in Hd. exact Hd.
    + reflexivity.
Qed.

Lemma perform_shutil_copy E src dst w r w' :
  perform E (shutil_copy src dst) w = Some (r, w') ->
  match r with
  | Done _ => dst ∈ files w'
  | Fault _ => io_fault E (ticks w) <> None \/ src ∉ files w
  end.
Proof.
  cbn. unfold guarded, writing.
  destruct (bool_decide _) eqn:Hd; destruct (io_fault E (ticks w));
    intros [= <- <-]; cbn.
  - left. discriminate.
  - apply elem_of_union_l, elem_of_singleton. reflexivity.
  - left. discriminate.
  - right. apply bool_decide_eq_false in Hd. exact Hd.
Qed.

Lemma perform_utcnow_iso E w x w' :
  perform E utcnow_iso w = Some (x, w') -> files w' = files w.
Proof. intros [= <- <-]. reflexivity. Qed.

(** What is known of the files before the copy into the scratch
    directory. *)
Ltac scratch_facts :=
  repeat match goal with
  | H : perform _ (mkdtemp _) _ = Some _ |- _ => apply perform_mkdtemp in H
  | H : perform _ (shutil_copy _ _) _ = Some _ |- _ => apply perform_shutil_copy in H
  | H : perform _ (logger _ _) _ = Some _ |- _ => apply perform_logger in H
  | H : perform _ utcnow_iso _ = Some _ |- _ => apply perform_utcnow_iso in H
  end.

(** C9 (PDF pass-through).  For a job whose file name has the lower-cased
    extension [pdf], no converter is run, and there are three ways for the
    job to go: the scratch directory cannot be created, and nothing is
    copied or run; the copy of the input file raises, and nothing is run;
    or the input file is copied into the scratch directory and the one
    external command run for the job is [lp] on that copy.  The last is
    what happens whenever the file system does not fault, the name picked
    for the scratch directory is free and the input file exists. *)
Theorem pdf_goes_straight_to_print E wid j w :
  Py.lower <$> (Py.rsplit1 (filename j) !! 1%nat) = Some "pdf" ->
  exists r w' d,
    exec E (handle_job E wid j) w = Some (r, w', d)
    /\ (forall c, c ∈ runs d -> program c.1.1 <> Some "libreoffice")
    /\ ((exists m, tmp_creations d = [Fault m] /\ copies d = [] /\ runs d = [])
        \/ (exists tmpdir copied,
              tmp_creations d = [Done tmpdir]
              /\ copies d =
                   [(filepath j, Py.path_join tmpdir (secure_filename E (filename j)),
                     copied)]
              /\ match copied with
                 | Fault _ => runs d = []
                 | Done _ =>
                     exists c,
                       runs d =
                         [(["lp"; Py.path_join tmpdir (secure_filename E (filename j))],
                           PRINT_TIMEOUT, c)]
                 end))
    /\ ((forall t, io_fault E t = None) ->
        (forall t, Py.path_join WORK_FOLDER (tmp_name E t) ∉ files w) ->
        filepath j ∈ files w ->
        exists tmpdir c,
          copies d =
            [(filepath j, Py.path_join tmpdir (secure_filename E (filename j)), Done tt)]
          /\ runs d =
               [(["lp"; Py.path_join tmpdir (secure_filename E (filename j))],
                 PRINT_TIMEOUT, c)]).
Proof.
  intros Hpdf.
  paths_of_handle_job; observe.
  all: try match goal with
       | H : Py.rsplit1 _ !! 1%nat = _ |- _ => rewrite H in Hpdf; cbn in Hpdf
       end.
  all: try discriminate Hpdf.
  all: try match goal with
       | H : (Py.lower ?s =? "pdf") = false |- _ =>
           injection Hpdf as Hpdf; rewrite Hpdf in H; discriminate H
       end.
  all: split; [intros c Hc; among; subst; cbn; discriminate |].
  all: repeat match goal with u : unit |- _ => destruct u end.
  all: try (split;
         [first [ left; eexists; repeat split; reflexivity
                | right; eexists _, _; split; [reflexivity |]; split; [reflexivity |];
                  first [reflexivity | eexists; reflexivity] ] |]).
  all: intros Hok Hfresh Hsrc.
  all: try (eexists _, _; split; reflexivity).
  all: exfalso; scratch_facts.
  all: repeat match goal with
       | H : _ \/ _ |- _ => destruct H as [H | H]; [exact (H (Hok _)) |]
       end.
  all: repeat match goal with
       | H : files _ = _ |- _ => rewrite H in *
       end.
  all: first [ exact (Hfresh _ ltac:(eassumption))
             | match goal with
               | H : _ ∉ _ |- _ => apply H, elem_of_union_r, Hsrc
               end ].
Qed.

(* ===================================================================== *)
(** ** The upload handler                                                 *)
(* ===================================================================== *)

Lemma perform_shared E {X} (o : op X) w x w' :
  on_shared o = false ->
  perform E o w = Some (x, w') ->
  job_queue w' = job_queue w /\ job_history w' = job_history w.
Proof.
  destruct o; try discriminate; intros _; cbn; unfold guarded, writing;
    repeat match goal with
    | |- context [match ?c with _ => _ end] =>
        lazymatch c with
        | context [match _ with _ => _ end] => fail
        | _ => destruct c
        end
    end; intros [= <- <-]; split; reflexivity.
Qed.

(** What is known of the shared objects after primitives that leave them
    alone. *)
Ltac shared_facts :=
  repeat match goal with
  | H : perform _ _ _ = Some _ |- _ =>
      apply perform_shared in H; [destruct H as [? ?] | reflexivity]
  end.

(** The tests of a handler, as propositions. *)
Ltac normalise_tests :=
  repeat match goal with
  | H : (_ =? _)%string = true |- _ => apply String.eqb_eq in H
  | H : (_ =? _)%string = false |- _ => apply String.eqb_neq in H
  | H : negb _ = true |- _ => apply negb_true_iff in H
  | H : negb _ = false |- _ => apply negb_false_iff in H
  | H : (_ <? _)%Z = true |- _ => apply Z.ltb_lt in H
  | H : (_ <? _)%Z = false |- _ => apply Z.ltb_ge in H
  end;
  unfold content_length in *;
  try match goal with
  | H : file_field _ = _ |- _ => rewrite H in *
  end.

(** C10 (rejected uploads).  The request is always answered.  It is
    answered with a status other than 200 exactly when it is turned down:
    a body above the size limit, no [file] field, an empty file name, an
    extension outside [{pdf, docx, pptx, xlsx}], a file above the size
    limit, or a failure to save the file.  In each of these cases the
    answer is an error message (werkzeug's page for a body above the
    limit) with status 400, 413 or 500, nothing was put on the queue,
    nothing was appended to the history, and both are left as they
    were. *)
Theorem rejected_upload_changes_nothing E req w :
  exists resp w' d,
    exec E (upload E req) w = Some (Normal resp, w', d)
    /\ (rejected E req d <-> resp.2 <> 200%Z)
    /\ (resp.2 <> 200%Z ->
        ((exists msg, resp.1 = json_error msg) \/ resp = REQUEST_ENTITY_TOO_LARGE)
        /\ (resp.2 = 400%Z \/ resp.2 = 413%Z \/ resp.2 = 500%Z)
        /\ puts d = [] /\ appends d = []
        /\ job_queue w' = job_queue w /\ job_history w' = job_history w).
Proof.
  apply after_normal. unfold upload, utcnow_Z, rejected, REQUEST_ENTITY_TOO_LARGE. symbolic.
  all: observe; cbn [fst snd].
  all: normalise_tests.
  all: split; [split |].
  (* a request that is turned down is answered with an error status *)
  all: try (intros _; discriminate).
  (* an error status has one of the reasons *)
  all: try (intros _; first
         [ left; assumption
         | right; exact I
         | right; left; assumption
         | right; right; left; assumption
         | right; right; right; left; assumption
         | right; right; right; right; eexists _, _; listed ]).
  (* an accepted request has none of them *)
  all: try (intros [Hlength | [Hname | [Hext | [Hsize | (path & m & Hsave)]]]] _;
            [ lia | contradiction | congruence | lia | among; discriminate ]).
  all: try (intros Hcode; exfalso; apply Hcode; reflexivity).
  (* nothing was touched *)
  all: intros _; shared_facts.
  all: split; [first [left; eexists; reflexivity | right; reflexivity] |].
  all: split; [auto |].
  all: repeat split; congruence.
Qed.

(* ===================================================================== *)
(** ** The queue and the single worker                                    *)
(* ===================================================================== *)

Lemma quiet_vis {A X} (o : op X) (k : X -> prog A) :
  calm o = true -> (forall x, quiet (k x)) -> quiet (Vis o k).
Proof. intros Ho Hk. split; assumption. Qed.

Lemma owes_now {A} j (e : event) (k : unit -> prog A) :
  ev_status e = processing -> ev_label e = label j ->
  (forall x, quiet (k x)) -> owes j (Vis (history_append e) k).
Proof. intros He Hl Hk. left. repeat split; assumption. Qed.

Lemma owes_later {A X} j (o : op X) (k : X -> prog A) :
  calm o = true -> (forall x, owes j (k x)) -> owes j (Vis o k).
Proof. intros Ho Hk. right. split; assumption. Qed.

Lemma waiting_get {A} (k : option job -> prog A) :
  quiet (k None) -> (forall j, owes j (k (Some j))) -> waiting (Vis queue_get k).
Proof. intros Hn Hj. left. split; assumption. Qed.

Lemma waiting_later {A X} (o : op X) (k : X -> prog A) :
  calm o = true -> (forall x, waiting (k x)) -> waiting (Vis o k).
Proof. intros Ho Hk. right. split; assumption. Qed.

Lemma quiet_pbind {A B} (p : prog A) (f : A -> prog B) :
  quiet p -> (forall a, quiet (f a)) -> quiet (pbind p f).
Proof.
  intros Hp Hf. induction p as [a | X o k IH]; cbn [pbind].
  - apply Hf.
  - destruct Hp as [Ho Hk]. split; [assumption |]. intros x. apply IH, Hk.
Qed.

Lemma owes_pbind {A B} j (p : prog A) (f : A -> prog B) :
  owes j p -> (forall a, quiet (f a)) -> owes j (pbind p f).
Proof.
  intros Hp Hf. induction p as [a | X o k IH]; cbn [pbind].
  - destruct Hp.
  - destruct Hp as [[Ho Hk] | [Ho Hk]].
    + left. split; [assumption |]. intros x. apply quiet_pbind; auto.
    + right. split; [assumption |]. intros x. apply IH, Hk.
Qed.

(** Walking through a program to see that it is quiet. *)
Ltac quiet_walk :=
  repeat first
    [ exact I
    | apply quiet_vis; [reflexivity | intros ?]
    | apply quiet_pbind; [| intros ?]
    | match goal with
      | |- quiet (match ?x with _ => _ end) => destruct x
      end
    | progress unfold mbind, py_bind, bind, mret, py_ret, ret, raise, continue,
        call, call_io, try_except, try_finally, with_TemporaryDirectory,
        record_history, utcnow_Z, run_subprocess, convert_to_pdf, print_pdf, cleanup ].

Lemma upload_quiet E req : quiet (upload E req).
Proof. unfold upload. quiet_walk. Qed.

Lemma handle_job_owes E wid j : owes j (handle_job E wid j).
Proof.
  unfold handle_job, try_finally, try_except.
  apply owes_pbind; [| intros a; quiet_walk].
  apply owes_pbind; [| intros a; quiet_walk].
  unfold process, utcnow_Z, record_history, mbind, py_bind, bind, call, ret.
  cbn [pbind].
  apply owes_later; [reflexivity | intros _].
  apply owes_later; [reflexivity | intros ts].
  apply owes_now; [reflexivity | reflexivity | intros _].
  quiet_walk.
Qed.

Lemma worker_turn_waiting E wid : waiting (worker_turn E wid).
Proof.
  unfold worker_turn, mbind, py_bind, bind, call. cbn [pbind].
  apply waiting_get.
  - quiet_walk.
  - intros j. unfold end_of_turn. apply owes_pbind; [apply handle_job_owes |].
    intros a. quiet_walk.
Qed.

Lemma start_worker_waiting E i : waiting (start_worker E i).2.
Proof.
  unfold start_worker, mbind, py_bind, bind, call. cbn [snd pbind].
  apply waiting_later; [reflexivity | intros _]. apply worker_turn_waiting.
Qed.

(** What one primitive adds to the observations. *)
Lemma gets_snoc d e : gets (d ++ [e]) = (gets d ++ gets [e])%list.
Proof. unfold gets. apply omap_app. Qed.

Lemma puts_snoc d e : puts (d ++ [e]) = (puts d ++ puts [e])%list.
Proof. unfold puts. apply omap_app. Qed.

Lemma taken_snoc d e : taken (d ++ [e]) = (taken d ++ taken [e])%list.
Proof. unfold taken. rewrite gets_snoc. apply omap_app. Qed.

Lemma processed_snoc d e : processed (d ++ [e]) = (processed d ++ processed [e])%list.
Proof.
  unfold processed, appends. rewrite omap_app, List.filter_app, map_app. reflexivity.
Qed.

Lemma calm_adds_nothing {X} (o : op X) x :
  calm o = true -> taken [Did o x] = [] /\ processed [Did o x] = [].
Proof.
  destruct o; try discriminate; intros Hc; split; try reflexivity.
  unfold processed, appends. cbn in *.
  destruct (is_processing (ev_status e)); [discriminate | reflexivity].
Qed.

Lemma announces_adds {X} j (o : op X) x :
  announces j o -> taken [Did o x] = [] /\ processed [Did o x] = [label j].
Proof.
  destruct o; try (intros []; fail). intros [He Hl]. split; [reflexivity |].
  unfold processed, appends. cbn. rewrite He. cbn. rewrite Hl. reflexivity.
Qed.

(** The queue is first in, first out. *)
Lemma perform_queue E {X} (o : op X) w x w' :
  perform E o w = Some (x, w') ->
  (gets [Did o x] ++ job_queue w')%list = (job_queue w ++ puts [Did o x])%list.
Proof.
  destruct o; cbn; unfold guarded, writing;
    repeat match goal with
    | |- context [match ?c with _ => _ end] =>
        lazymatch c with
        | context [match _ with _ => _ end] => fail
        | _ => destruct c
        end
    end; intros [= <- <-]; cbn; rewrite ?app_nil_r; reflexivity.
Qed.

Lemma step_thread_inv E {A} (p : py A) s p' w' e :
  step_thread E p s = Some (p', w', e) ->
  exists X (o : op X) k x,
    p = Vis o k /\ perform E o (shared s) = Some (x, w') /\ p' = k x /\ e = Did o x.
Proof.
  destruct p as [a | X o k]; cbn; [discriminate |].
  destruct (perform E o (shared s)) as [[x w1] |] eqn:Hp; [| discriminate].
  intros [= <- <- <-]. eexists _, _, _, _. repeat split; try reflexivity. exact Hp.
Qed.

Lemma fifo_step E {X} (o : op X) w x w' d :
  perform E o w = Some (x, w') ->
  (gets d ++ job_queue w)%list = puts d ->
  (gets (d ++ [Did o x]) ++ job_queue w')%list = puts (d ++ [Did o x]).
Proof.
  intros Hp Hinv. rewrite gets_snoc, puts_snoc, <- app_assoc.
  rewrite (perform_queue _ _ _ _ _ Hp), app_assoc, Hinv. reflexivity.
Qed.

(** A calm primitive of another thread does not concern the worker. *)
Lemma worker_inv_calm {A} (p : prog A) {X} (o : op X) x d :
  calm o = true -> worker_inv p d -> worker_inv p (d ++ [Did o x]).
Proof.
  intros Hc. destruct (calm_adds_nothing o x Hc) as [Ht Hpr].
  unfold worker_inv. rewrite taken_snoc, processed_snoc, Ht, Hpr, !app_nil_r.
  trivial.
Qed.

(** A primitive of the worker itself. *)
Lemma worker_inv_step {A X} (o : op X) (k : X -> prog A) x d :
  worker_inv (Vis o k) d -> worker_inv (k x) (d ++ [Did o x]).
Proof.
  unfold worker_inv. rewrite taken_snoc, processed_snoc.
  intros [[[Hw | Hq] Heq] | (j & Ho & Heq)].
  - destruct Hw as [Hs | [Hc Hk]].
    + destruct o; try (destruct Hs; fail). destruct Hs as [Hn Hj].
      destruct x as [j |].
      * right. exists j. split; [apply Hj |].
        cbn. rewrite app_nil_r, Heq, map_app. reflexivity.
      * left. split; [right; exact Hn |]. cbn. rewrite !app_nil_r. exact Heq.
    + destruct (calm_adds_nothing o x Hc) as [Ht Hpr].
      left. rewrite Ht, Hpr, !app_nil_r. split; [left; apply Hk | exact Heq].
  - destruct Hq as [Hc Hk]. destruct (calm_adds_nothing o x Hc) as [Ht Hpr].
    left. rewrite Ht, Hpr, !app_nil_r. split; [right; apply Hk | exact Heq].
  - destruct Ho as [[Ha Hk] | [Hc Hk]].
    + destruct (announces_adds j o x Ha) as [Ht Hpr].
      left. rewrite Ht, Hpr, app_nil_r. split; [right; apply Hk | exact Heq].
    + destruct (calm_adds_nothing o x Hc) as [Ht Hpr].
      right. exists j. rewrite Ht, Hpr, !app_nil_r. split; [apply Hk | exact Heq].
Qed.

Lemma boot_inv E fs : server_inv (boot E fs).
Proof.
  split; [reflexivity |]. split; [constructor |].
  eexists _, _. split; [reflexivity |].
  left. split; [| reflexivity]. left. apply (start_worker_waiting E 0).
Qed.

Lemma step_inv E a s : server_inv s -> server_inv (step E a s).
Proof.
  intros (Hfifo & Hquiet & worker_id & p & Hworkers & Hworker).
  destruct a as [req | i | i]; cbn [step].
  - (* a request arrives *)
    split; [exact Hfifo |]. split.
    + apply Forall_app. split; [exact Hquiet |].
      constructor; [apply upload_quiet | constructor].
    + eauto.
  - (* a handler performs a primitive *)
    destruct (handlers s !! i) as [h |] eqn:Hh; [| repeat split; eauto].
    destruct (step_thread E h s) as [[[h' w'] e] |] eqn:Hstep; [| repeat split; eauto].
    apply step_thread_inv in Hstep.
    destruct Hstep as (X & o & k & x & -> & Hp & -> & ->).
    assert (Hq : quiet (Vis o k)).
    { exact (proj1 (Forall_lookup _ _) Hquiet _ _ Hh). }
    destruct Hq as [Hc Hk].
    split; [exact (fifo_step _ _ _ _ _ _ Hp Hfifo) |]. split.
    + apply Forall_insert; [exact Hquiet | apply Hk].
    + exists worker_id, p. split; [exact Hworkers |].
      cbn. apply worker_inv_calm; assumption.
  - (* the worker performs a primitive, or starts its next turn *)
    rewrite Hworkers. destruct i as [| i]; cbn [lookup list_lookup];
      [| repeat split; eauto].
    destruct p as [[[] | e |] | X o k]; cbn [step_thread].
    + (* the loop has ended *)
      repeat split; eauto.
    + (* the turn has ended: the next one starts *)
      split; [exact Hfifo |]. split; [exact Hquiet |].
      eexists _, _. split; [reflexivity |]. cbn.
      destruct Hworker as [[_ Heq] | (j & [] & _)].
      left. split; [left; apply worker_turn_waiting | exact Heq].
    + repeat split; eauto.
    + repeat split; eauto.
    + (* a primitive *)
      destruct (perform E o (shared s)) as [[x w'] |] eqn:Hp; [| repeat split; eauto].
      split; [exact (fifo_step _ _ _ _ _ _ Hp Hfifo) |]. split; [exact Hquiet |].
      eexists _, _. split; [reflexivity |]. cbn. apply worker_inv_step, Hworker.
Qed.

Lemma run_schedule_inv E sched : forall s,
  server_inv s -> server_inv (run_schedule E sched s).
Proof.
  induction sched as [| a sched IH]; intros s Hs; [exact Hs |].
  cbn. apply IH, step_inv, Hs.
Qed.

(** C2 (first in, first out).  With the one worker the server starts
    ([WORKER_COUNT = 1]), after any schedule of arrivals of requests, of
    steps of their handlers and of steps of the worker: the items taken
    from the queue followed by the items still in it are the items put on
    it, in the order in which they were put, so that the [i]-th item taken
    is the [i]-th item put; and the worker's [processing] entries are those
    of the jobs taken, in the same order, at most the last job taken
    lacking its entry yet. *)
Theorem single_worker_is_fifo E fs sched :
  let s := run_schedule E sched (boot E fs) in
  let d := performed s in
  (gets d ++ job_queue (shared s))%list = puts d
  /\ (forall i x, gets d !! i = Some x -> puts d !! i = Some x)
  /\ (forall i l, processed d !! i = Some l ->
        exists j, taken d !! i = Some j /\ l = label j)
  /\ length (taken d) <= length (processed d) + 1.
Proof.
  intros s d.
  destruct (run_schedule_inv E sched _ (boot_inv E fs))
    as (Hfifo & _ & worker_id & p & _ & Hworker).
  fold s in Hfifo, Hworker. fold d in Hfifo, Hworker.
  split; [exact Hfifo |]. split.
  { intros i x Hi. rewrite <- Hfifo. apply lookup_app_l_Some, Hi. }
  assert (Hprefix : exists rest, (processed d ++ rest)%list = map label (taken d)
                                 /\ length rest <= 1).
  { destruct Hworker as [[_ Heq] | (j & _ & Heq)].
    - exists []. rewrite app_nil_r. split; [exact Heq | cbn; lia].
    - exists [label j]. split; [exact Heq | cbn; lia]. }
  destruct Hprefix as (rest & Heq & Hrest). split.
  - intros i l Hi.
    assert (Hl : map label (taken d) !! i = Some l).
    { rewrite <- Heq. apply lookup_app_l_Some, Hi. }
    change (map label (taken d)) with (label <$> taken d) in Hl.
    rewrite list_lookup_fmap in Hl.
    destruct (taken d !! i) as [j |]; [| discriminate].
    injection Hl as <-. eauto.
  - apply (f_equal length) in Heq. rewrite length_app, length_map in Heq. lia.
Qed.

(* ===================================================================== *)
(** ** Job identifiers                                                    *)
(* ===================================================================== *)

Lemma str_of_int_inj a b : Py.str_of_int a = Py.str_of_int b -> a = b.
Proof.
  unfold Py.str_of_int. intros H.
  assert (Hnil : forall z, Z.to_int z <> Decimal.Pos Decimal.Nil
                           /\ Z.to_int z <> Decimal.Neg Decimal.Nil).
  { intros [| p | p]; cbn; split; try discriminate; intros [= Hp];
      exact (DecimalPos.Unsigned.to_uint_nonnil p Hp). }
  apply DecimalZ.to_int_inj.
  assert (Hs : Some (Z.to_int a) = Some (Z.to_int b)).
  { rewrite <- (NilZero.isi (Z.to_int a)), <- (NilZero.isi (Z.to_int b));
      try apply Hnil. rewrite H. reflexivity. }
  congruence.
Qed.

Lemma job_id_at_inj t1 t2 : job_id_at t1 = job_id_at t2 -> t1 = t2.
Proof. unfold job_id_at. intros [= H]. apply str_of_int_inj, H. Qed.

(** An accepted upload is answered with the identifier made from the
    reading of the clock at its first primitive, and puts one job with
    that identifier on the queue. *)
Lemma accepted_job_id E req w resp w' d :
  exec E (upload E req) w = Some (Normal resp, w', d) ->
  resp.2 = 200%Z ->
  resp.1 = json_queued (job_id_at (clock_ms E (ticks w)))
  /\ exists j, puts d = [Some j] /\ id j = job_id_at (clock_ms E (ticks w)).
Proof.
  intros Hex.
  assert (H : after E (upload E req) w (fun r _ d =>
            forall resp, r = Normal resp -> resp.2 = 200%Z ->
              resp.1 = json_queued (job_id_at (clock_ms E (ticks w)))
              /\ exists j, puts d = [Some j] /\ id j = job_id_at (clock_ms E (ticks w)))).
  { unfold upload, utcnow_Z. symbolic.
    all: intros resp0 [= <-]; cbn [fst snd]; try discriminate; intros _.
    all: observe.
    all: match goal with
         | H : perform _ time_millis _ = Some _ |- _ => injection H as <- _
         end.
    all: split; [reflexivity | eexists; split; reflexivity]. }
  unfold after in H. rewrite Hex in H. exact (H resp eq_refl).
Qed.

(* ===================================================================== *)
(** ** Scenarios                                                          *)
(* ===================================================================== *)

(** The helpers on small inputs. *)
Example rsplit1_last_dot : Py.rsplit1 "q3.report.pdf" = ["q3.report"; "pdf"].
Proof. reflexivity. Qed.

Example rsplit1_no_dot : Py.rsplit1 "README" = ["README"].
Proof. reflexivity. Qed.

Example allowed_file_upper : allowed_file "Report.PDF" = true.
Proof. vm_compute. reflexivity. Qed.

Example allowed_file_exe : allowed_file "setup.exe" = false.
Proof. vm_compute. reflexivity. Qed.

Example allowed_file_no_dot : allowed_file "pdf" = false.
Proof. vm_compute. reflexivity. Qed.

Example splitext_root_docx : Py.splitext_root (Py.basename "/w/tmp1/letter.docx") = "letter".
Proof. reflexivity. Qed.

Example splitext_root_hidden : Py.splitext_root ".profile" = ".profile".
Proof. reflexivity. Qed.

Example path_join_plain : Py.path_join WORK_FOLDER "tmpk3v9x2" = "/var/lib/stark/work/tmpk3v9x2".
Proof. reflexivity. Qed.

Example strip_both : Py.strip "  request id is Office-42 " = "request id is Office-42".
Proof. reflexivity. Qed.

Example strip_unicode_spaces :
  Py.strip (Py.utf8 [194; 160] ++ "request id is Office-42"
            ++ Py.utf8 [226; 128; 131; 10; 194; 133])
  = "request id is Office-42".
Proof. vm_compute. reflexivity. Qed.

Example str_of_int_millis : Py.str_of_int 1700000000000 = "1700000000000".
Proof. reflexivity. Qed.

(** [worker_loop] on a queue holding one PDF job and the sentinel: the job
    is recorded as [processing] and then as [printed], its file is
    removed, nothing is left of the scratch directory, and the loop
    ends. *)
Example worker_loop_prints_and_stops :
  (fun '(r, w', _) =>
     (r, job_queue w', ledger_view (job_history w'), elements (files w')))
    <$> exec office (worker_loop office 5 1) (last_job pdf_job)
  = Some (Normal tt, [],
          [(processing, "job-1700000000000"); (printed, "job-1700000000000")],
          []).
Proof. vm_compute. reflexivity. Qed.

(** [letter.docx] is converted first and then printed. *)
Example worker_loop_converts :
  (fun '(_, w', d) => (ledger_view (job_history w'), map (fun c => program c.1.1) (runs d)))
    <$> exec office (worker_loop office 5 1) (last_job docx_job)
  = Some ([(processing, "job-1700000000000"); (printed, "job-1700000000000")],
          [Some "libreoffice"; Some "lp"]).
Proof. vm_compute. reflexivity. Qed.


(** C1 (one terminal history event per job) is violated by the code: when
    the copy of the input file into the scratch directory raises, the
    worker's [except Exception] clause only logs, and the handling of the
    job ends with no terminal history entry at all (the job's only entry
    is [processing]). *)
Theorem copy_fault_leaves_no_terminal_event :
  (fun '(_, w', d) =>
     (copies d, length (terminal_events d), ledger_view (job_history w')))
    <$> exec full_disk (handle_job full_disk 1 pdf_job) (holding pdf_job)
  = Some ([("/var/lib/stark/uploads/1700000000000_report.pdf",
            "/var/lib/stark/work/tmpk3v9x2/report.pdf",
            Fault "No space left on device")],
          0, [(processing, "job-1700000000000")]).
Proof. vm_compute. reflexivity. Qed.

(** C4 (unique job identifiers) is violated by the code: two uploads
    accepted while the clock shows the same millisecond are both answered
    with the same job identifier, and the queue then holds two jobs with
    that identifier. *)
Theorem same_millisecond_same_job_id :
  (fun '(r, w', _) => (r, queued_ids (job_queue w')))
    <$> exec office (upload_twice office report_request letter_request) fresh_world
  = Some (Normal ((json_queued "job-1700000000000", 200%Z),
                  (json_queued "job-1700000000000", 200%Z)),
          ["job-1700000000000"; "job-1700000000000"]).
Proof. vm_compute. reflexivity. Qed.

(** C5 ([queued] before [processing]) is violated by the code: [upload]
    puts the job on the queue before it records it, so on the schedule
    [worker_overtakes] the ledger shows the job's [processing] entry
    before its [queued] entry. *)
Theorem processing_recorded_before_queued :
  ledger_view (job_history (shared (run_schedule office worker_overtakes (boot office ∅))))
  = [(processing, "job-1700000000000"); (queued, "job-1700000000000")].
Proof. vm_compute. reflexivity. Qed.

(** C6 (history ledger bound) is violated by the code: [record_history]
    appends, reads the length and deletes in three steps, under no lock,
    and it is called by the handlers and by the worker.  On the schedule
    [racing_appends] the ledger holds 201 entries after the 201st append,
    both threads read that length, and both delete: of the 201 entries
    appended, the ledger keeps 199, its first entry being the third one
    appended, so that the 200th most recent entry is lost. *)
Theorem overlapping_appends_lose_an_entry :
  (fun s =>
     (length (appends (performed s)),
      length (job_history (shared s)),
      take 3 (ledger_view (appends (performed s))),
      take 1 (ledger_view (job_history (shared s)))))
    (run_schedule rush_hour racing_appends (boot rush_hour ∅))
  = (201, 199,
     [(queued, "job-1700000000000"); (queued, "job-1700000000007");
      (queued, "job-1700000000014")],
     [(queued, "job-1700000000014")]).
Proof. vm_compute. reflexivity. Qed.

(** On the same schedule, before the two deletions, the ledger holds 201
    entries. *)
Example overlapping_appends_exceed_the_cap :
  length (job_history (shared
    (run_schedule rush_hour (take (length racing_appends - 2) racing_appends)
                  (boot rush_hour ∅))))
  = 201.
Proof. vm_compute. reflexivity. Qed.

(** C9 at work: [report.pdf] is copied and the copy is printed. *)
Lemma report_goes_straight_to_print :
  exists r w' d,
    exec office (handle_job office 1 pdf_job) (holding pdf_job) = Some (r, w', d)
    /\ (forall c, c ∈ runs d -> program c.1.1 <> Some "libreoffice")
    /\ exists tmpdir c,
         copies d =
           [(filepath pdf_job,
             Py.path_join tmpdir (secure_filename office (filename pdf_job)), Done tt)]
         /\ runs d =
              [(["lp"; Py.path_join tmpdir (secure_filename office (filename pdf_job))],
                PRINT_TIMEOUT, c)].
Proof.
  destruct (pdf_goes_straight_to_print office 1 pdf_job (holding pdf_job))
    as (r & w' & d & Hex & Hnone & _ & Hprinted).
  { vm_compute. reflexivity. }
  exists r, w', d. split; [exact Hex |]. split; [exact Hnone |].
  apply Hprinted.
  - intros t. reflexivity.
  - intros t. unfold holding. cbn [files]. rewrite elem_of_singleton. discriminate.
  - unfold holding. cbn [files]. rewrite elem_of_singleton. reflexivity.
Defined.

(** C7 at work: [letter.docx], with a converter that cannot load it. *)
Lemma broken_converter_is_recorded :
  exists r w' d,
    exec broken_converter (handle_job broken_converter 1 docx_job) (holding docx_job)
      = Some (r, w', d)
    /\ (exists ts,
          terminal_events d =
            [Event ts "job-1700000000000" "letter.docx" conversion_failed
                   (with_error "LibreOffice failed: Error: source file could not be loaded")])
    /\ (forall c, c ∈ runs d -> program c.1.1 <> Some "lp").
Proof.
  destruct (converter_failure_is_terminal broken_converter 1 docx_job (holding docx_job))
    as (r & w' & d & Hex & Hfail).
  exists r, w', d. split; [exact Hex |].
  vm_compute in Hex. injection Hex as <- <- <-.
  eapply (Hfail _ _ 1%Z "" "Error: source file could not be loaded" []);
    [observe; listed | reflexivity | discriminate].
Defined.

(** C8 at work: [report.pdf], with a spooler that does not answer. *)
Lemma stuck_spooler_is_recorded :
  exists r w' d,
    exec stuck_spooler (handle_job stuck_spooler 1 pdf_job) (holding pdf_job)
      = Some (r, w', d)
    /\ (exists ts,
          terminal_events d =
            [Event ts "job-1700000000000" "report.pdf" print_failed
                   (with_error "Timeout expired: Command lp timed out after 30 seconds")])
    /\ (exists tmpdir res,
          tmp_creations d = [Done tmpdir]
          /\ tree_removals d = [(tmpdir, res)]
          /\ (res = Done tt -> forall p, under tmpdir p = true -> p ∉ files w')).
Proof.
  destruct (print_timeout_is_terminal stuck_spooler 1 pdf_job (holding pdf_job))
    as (r & w' & d & Hex & Htimeout).
  exists r, w', d. split; [exact Hex |].
  vm_compute in Hex. injection Hex as <- <- <-.
  destruct (Htimeout (lp_command "/var/lib/stark/work/tmpk3v9x2/report.pdf") PRINT_TIMEOUT
              "Command lp timed out after 30 seconds") as (_ & Hterminal & Hscratch);
    [observe; listed | reflexivity |].
  split; [exact Hterminal | exact Hscratch].
Defined.
(* ===================================================================== *)
(** ** File names                                                         *)
(* ===================================================================== *)

Lemma rsplit_last_none sep s :
  Py.rsplit_last sep s = None <-> has_char sep s = false.
Proof.
  induction s as [| c r IH]; cbn; [tauto |].
  destruct (Py.rsplit_last sep r) as [[a b] |].
  - split; [discriminate |]. intros H. apply orb_false_iff in H.
    destruct H as [_ H]. apply IH in H. discriminate.
  - destruct (Ascii.eqb c sep); cbn; [split; discriminate |].
    split; intros _; [apply IH |]; reflexivity.
Qed.

Lemma rsplit_last_split sep s : forall a b,
  Py.rsplit_last sep s = Some (a, b) ->
  s = (a ++ String sep b) /\ has_char sep b = false.
Proof.
  induction s as [| c r IH]; intros a b; cbn; [discriminate |].
  destruct (Py.rsplit_last sep r) as [[a' b'] |] eqn:Hr.
  - intros [= <- <-]. destruct (IH a' b' eq_refl) as [-> Hb]. auto.
  - apply rsplit_last_none in Hr.
    destruct (Ascii.eqb_spec c sep) as [-> | Hne]; [| discriminate].
    intros [= <- <-]. auto.
Qed.

Lemma rsplit_last_join sep a b :
  has_char sep b = false -> Py.rsplit_last sep (a ++ String sep b) = Some (a, b).
Proof.
  intros Hb. induction a as [| c a IH]; simpl.
  - rewrite (proj2 (rsplit_last_none sep b) Hb), Ascii.eqb_refl. reflexivity.
  - rewrite IH. reflexivity.
Qed.

(** X1.  [allowed_file] accepts exactly the names that end in a dot
    followed by a dot-free extension whose lower-cased form is one of
    [pdf], [docx], [pptx], [xlsx]: only what follows the last dot counts,
    whatever its case, and a name without a dot is refused. *)
Theorem allowed_file_iff name :
  allowed_file name = true <->
  exists base ext,
    name = base ++ "." ++ ext
    /\ has_char "." ext = false
    /\ Py.lower ext ∈ ALLOWED_EXTENSIONS.
Proof.
  unfold allowed_file, Py.rsplit1.
  destruct (Py.rsplit_last "." name) as [[a b] |] eqn:Hsplit.
  - cbn. rewrite bool_decide_eq_true. split.
    + intros Hin. destruct (rsplit_last_split _ _ _ _ Hsplit) as [-> Hb].
      exists a, b. auto.
    + intros (base & ext & -> & Hext & Hin).
      change (base ++ "." ++ ext) with (base ++ String "." ext) in Hsplit.
      rewrite (rsplit_last_join _ _ _ Hext) in Hsplit.
      injection Hsplit as _ <-. exact Hin.
  - cbn. split; [discriminate |].
    intros (base & ext & -> & Hext & _).
    change (base ++ "." ++ ext) with (base ++ String "." ext) in Hsplit.
    rewrite (rsplit_last_join _ _ _ Hext) in Hsplit. discriminate.
Qed.

(* ===================================================================== *)
(** ** The external-process adapters                                      *)
(* ===================================================================== *)

Lemma perform_path_exists E p w x w' :
  perform E (path_exists p) w = Some (x, w') ->
  files w' = files w /\ (x = true <-> p ∈ files w).
Proof.
  intros [= <- <-]. split; [reflexivity |]. apply bool_decide_eq_true.
Qed.

(** What the tests of a path say. *)
Ltac tests :=
  repeat match goal with
  | H : negb _ = false |- _ => apply negb_false_iff in H
  | H : negb _ = true |- _ => apply negb_true_iff in H
  | H : (?rc =? 0)%Z = true |- _ => apply Z.eqb_eq in H; try subst rc
  | H : (_ =? 0)%Z = false |- _ => apply Z.eqb_neq in H
  | H : ?x = true |- _ => is_var x; subst x
  | H : ?x = false |- _ => is_var x; subst x
  end.

(** X2.  [run_subprocess] never raises and runs the command once, with the
    deadline it was given.  It reports code 0 exactly when the process
    completed with return code 0; an expired deadline is reported as code
    -1 with an empty output and an error text that starts with
    [Timeout expired:], any other exception as code -1 with its message. *)
Theorem run_subprocess_reports E cmd deadline w :
  exists res w' d,
    exec E (run_subprocess cmd deadline) w = Some (Normal res, w', d)
    /\ exists c,
         runs d = [(cmd, deadline, c)]
         /\ (res.1.1 = 0%Z <-> exists out err written, c = Exited 0 out err written)
         /\ (forall rc out err written,
               c = Exited rc out err written -> res = (rc, out, err))
         /\ (forall m, c = TimeoutExpired m ->
               res = ((-1)%Z, "", "Timeout expired: " ++ m))
         /\ (forall m, c = SpawnError m -> res = ((-1)%Z, "", m)).
Proof.
  apply after_normal. unfold run_subprocess. symbolic.
  all: observe; eexists; split; [reflexivity |]; cbn [fst snd].
  all: repeat split; try discriminate; try (intros; congruence).
  - intros ->. eauto.
  - intros (out' & err' & written' & [= -> _ _ _]). reflexivity.
  - intros (out' & err' & written' & H). discriminate H.
  - intros (out' & err' & written' & H). discriminate H.
Qed.

(** X3.  When [convert_to_pdf] returns, it returns the path made of the
    output directory and the input's base name with [.pdf]; that file
    exists at that moment, and the converter was run once, with the
    60-second deadline, and exited with code 0. *)
Theorem convert_to_pdf_returns_existing_pdf E input_path out_dir w :
  exists r w' d,
    exec E (convert_to_pdf input_path out_dir) w = Some (r, w', d)
    /\ forall pdf_path, r = Normal pdf_path ->
         pdf_path = Py.path_join out_dir
                      (Py.splitext_root (Py.basename input_path) ++ ".pdf")
         /\ pdf_path ∈ files w'
         /\ exists out err written,
              runs d = [(["libreoffice"; "--headless"; "--invisible"; "--convert-to";
                          "pdf"; "--outdir"; out_dir; input_path],
                         CONVERT_TIMEOUT, Exited 0 out err written)]
              /\ CONVERT_TIMEOUT = 60%Z.
Proof.
  apply after_spec. unfold convert_to_pdf, run_subprocess. symbolic.
  all: intros pdf_path [= <-].
  all: split; [reflexivity |].
  all: match goal with
       | H : perform _ (path_exists _) _ = Some _ |- _ =>
           apply perform_path_exists in H; destruct H as [Hsame Hexists]
       end.
  all: tests.
  all: split; [rewrite Hsame; apply Hexists; reflexivity |].
  all: observe.
  all: eexists _, _, _; split; reflexivity.
Qed.

(** X4.  [convert_to_pdf] never ends otherwise than by returning a path or
    by raising.  When the converter exits with code 0 without leaving the
    expected file, it raises [Conversion did not produce PDF: expected]
    followed by the path; when the converter does not exit with code 0
    (non-zero code, expired deadline, or failure to start), it raises
    [LibreOffice failed:] followed by the diagnostic, without looking for
    the file. *)
Theorem convert_to_pdf_failures E input_path out_dir w :
  exists r w' d,
    exec E (convert_to_pdf input_path out_dir) w = Some (r, w', d)
    /\ r <> Continue
    /\ exists c,
         map snd (runs d) = [c]
         /\ (forall out err written, c = Exited 0 out err written ->
               forall e, r = Raised e ->
                 e = "Conversion did not produce PDF: expected "
                     ++ Py.path_join out_dir
                          (Py.splitext_root (Py.basename input_path) ++ ".pdf")
                 /\ Py.path_join out_dir
                      (Py.splitext_root (Py.basename input_path) ++ ".pdf") ∉ files w')
         /\ ((forall out err written, c <> Exited 0 out err written) ->
               length d = 1
               /\ exists diagnostic, r = Raised ("LibreOffice failed: " ++ diagnostic)).
Proof.
  apply after_spec. unfold convert_to_pdf, run_subprocess. symbolic.
  all: split; [discriminate |].
  all: observe; cbn [map snd]; eexists; split; [reflexivity |].
  all: tests.
  all: split.
  all: try (intros out' err' written' [=]; fail).
  all: try (intros out' err' written' Hc e [=]; fail).
  all: try (intros Hnot; split; [reflexivity | eexists; reflexivity]).
  all: try (intros Hnot; exfalso; eapply Hnot; reflexivity).
  all: try (intros out' err' written' [= Hrc _ _ _]; congruence).
  all: intros out' err' written' _ e [= <-].
  all: split; [reflexivity |].
  all: match goal with
       | H : perform _ (path_exists _) _ = Some _ |- _ =>
           apply perform_path_exists in H; destruct H as [Hsame Hexists]
       end.
  all: rewrite Hsame; intros Hin; apply Hexists in Hin; discriminate.
Qed.

(** X5.  [print_pdf] never raises and runs [lp] once on the given file,
    with the 30-second deadline.  It reports success exactly when [lp]
    exited with code 0, and then gives its output with the white space at
    both ends removed; after a non-zero exit it gives the standard error
    text, or the output when that is empty. *)
Theorem print_pdf_reports E pdf_path w :
  exists res w' d,
    exec E (print_pdf pdf_path) w = Some (Normal res, w', d)
    /\ exists c,
         runs d = [(["lp"; pdf_path], 30%Z, c)]
         /\ (res.1 = true <-> exists out err written, c = Exited 0 out err written)
         /\ (forall out err written,
               c = Exited 0 out err written -> res.2 = Py.strip out)
         /\ (forall rc out err written,
               c = Exited rc out err written -> rc <> 0%Z ->
               res.2 = match err with EmptyString => out | _ => err end).
Proof.
  apply after_normal. unfold print_pdf, run_subprocess. symbolic.
  all: observe; eexists; split; [reflexivity |]; cbn [fst snd].
  all: tests.
  all: repeat split; try discriminate.
  all: try (intros (out' & err' & written' & [=]); congruence).
  all: try (intros out' err' written' [=]; congruence).
  all: try (intros rc' out' err' written' [=]; intros; subst; congruence).
  all: try (intros _; eauto).
  intros rc' out' err' written' [= <- <- <- <-] _. reflexivity.
Qed.

(* ===================================================================== *)
(** ** More on the handling of one job                                    *)
(* ===================================================================== *)

(** What is known of the queue after primitives that leave it alone. *)
Ltac queue_facts :=
  repeat match goal with
  | H : perform _ _ _ = Some _ |- _ =>
      apply perform_shared in H; [destruct H as [? _] | reflexivity]
  end.

(** X6.  Handling a job never touches the queue: nothing is put on it
    (a failed job is not queued again), nothing is taken from it, and it
    is left as it was.  Each external program is run at most once, the
    converter before the spooler. *)
Theorem handle_job_no_requeue_no_retry E wid j w :
  exists r w' d,
    exec E (handle_job E wid j) w = Some (r, w', d)
    /\ puts d = [] /\ gets d = []
    /\ job_queue w' = job_queue w
    /\ (map (fun c => program c.1.1) (runs d) = []
        \/ map (fun c => program c.1.1) (runs d) = [Some "lp"]
        \/ map (fun c => program c.1.1) (runs d) = [Some "libreoffice"]
        \/ map (fun c => program c.1.1) (runs d) = [Some "libreoffice"; Some "lp"]).
Proof.
  paths_of_handle_job; observe.
  all: split; [reflexivity |]; split; [reflexivity |].
  all: split; [queue_facts; congruence |].
  all: cbn [map fst snd program head]; rewrite ?program_lp; auto.
Qed.

(** X7.  The first history entry appended for a job is its [processing]
    entry, carrying the job's identifier, file name and client; whatever
    else is appended for the job are its terminal entries. *)
Theorem processing_entry_comes_first E wid j w :
  exists r w' d,
    exec E (handle_job E wid j) w = Some (r, w', d)
    /\ exists ts,
         appends d =
           Event ts (id j) (filename j) processing (with_client (client j))
           :: terminal_events d.
Proof.
  paths_of_handle_job; observe.
  all: eexists; reflexivity.
Qed.

(** X8.  Whenever the [lp] command run for a job exits with code 0, the
    job's one terminal history entry has status [printed] and carries the
    spooler's output with the white space at both ends removed. *)
Theorem spooler_success_is_printed E wid j w :
  exists r w' d,
    exec E (handle_job E wid j) w = Some (r, w', d)
    /\ forall cmd deadline out err written,
         (cmd, deadline, Exited 0 out err written) ∈ runs d ->
         program cmd = Some "lp" ->
         exists ts,
           terminal_events d =
             [Event ts (id j) (filename j) printed
                    (with_printer_response (Py.strip out))].
Proof.
  paths_of_handle_job; observe.
  all: intros cmd deadline out' err' written' Hrun Hprog.
  all: among; excluded; tests; try discriminate; try congruence.
  all: eexists; reflexivity.
Qed.

(** X9.  Whenever the [lp] command run for a job exits with a non-zero
    code, the job's one terminal history entry has status [print_failed]
    and carries the spooler's standard error text, or its output when
    that is empty. *)
Theorem spooler_failure_is_print_failed E wid j w :
  exists r w' d,
    exec E (handle_job E wid j) w = Some (r, w', d)
    /\ forall cmd deadline rc out err written,
         (cmd, deadline, Exited rc out err written) ∈ runs d ->
         program cmd = Some "lp" ->
         rc <> 0%Z ->
         exists ts,
           terminal_events d =
             [Event ts (id j) (filename j) print_failed
                    (with_error (match err with EmptyString => out | _ => err end))].
Proof.
  paths_of_handle_job; observe.
  all: intros cmd deadline rc out' err' written' Hrun Hprog Hrc.
  all: among; excluded; tests; try discriminate; try congruence.
  all: eexists; reflexivity.
Qed.

(** X10.  Whenever the converter run for a job does not finish within its
    deadline, or cannot be started, the job's one terminal history entry
    has status [conversion_failed] with the text [LibreOffice failed:]
    followed by the reason ([Timeout expired: ...] for the deadline), and
    no [lp] command is run. *)
Theorem converter_timeout_is_conversion_failed E wid j w :
  exists r w' d,
    exec E (handle_job E wid j) w = Some (r, w', d)
    /\ forall cmd deadline c reason,
         (cmd, deadline, c) ∈ runs d ->
         program cmd = Some "libreoffice" ->
         (exists m, c = TimeoutExpired m /\ reason = "Timeout expired: " ++ m)
         \/ c = SpawnError reason ->
         deadline = 60%Z
         /\ (exists ts,
               terminal_events d =
                 [Event ts (id j) (filename j) conversion_failed
                        (with_error ("LibreOffice failed: " ++ reason))])
         /\ (forall c', c' ∈ runs d -> program c'.1.1 <> Some "lp").
Proof.
  paths_of_handle_job; observe.
  all: intros cmd deadline c reason Hrun Hprog [(m & Hc & Hreason) | Hc].
  all: among; excluded; try discriminate.
  all: try match goal with
       | H : TimeoutExpired _ = TimeoutExpired _ |- _ => injection H as <-
       | H : SpawnError _ = SpawnError _ |- _ => injection H as <-
       end.
  all: split; [reflexivity |].
  all: split; [| intros c' Hc'; among; subst; cbn; discriminate].
  all: eexists; try reflexivity.
  all: match goal with
       | |- context [Py.or_else ?reason ""] => destruct reason; reflexivity
       end.
Qed.

(** X11.  Whenever the converter run for a job exits with code 0, either
    the one [lp] command of the job is run on the file the converter was
    expected to leave in the scratch directory (the input's base name with
    [.pdf]), or, that file being absent, no [lp] command is run and the
    job's one terminal history entry has status [conversion_failed] with
    the text [Conversion did not produce PDF: expected] followed by that
    path. *)
Theorem converted_file_is_what_is_printed E wid j w :
  exists r w' d,
    exec E (handle_job E wid j) w = Some (r, w', d)
    /\ forall cmd deadline out err written,
         (cmd, deadline, Exited 0 out err written) ∈ runs d ->
         program cmd = Some "libreoffice" ->
         exists tmpdir,
           tmp_creations d = [Done tmpdir]
           /\ let pdf_path :=
                Py.path_join tmpdir
                  (Py.splitext_root
                     (Py.basename (Py.path_join tmpdir (secure_filename E (filename j))))
                   ++ ".pdf") in
              (exists c,
                 runs d = [(cmd, deadline, Exited 0 out err written);
                           (["lp"; pdf_path], PRINT_TIMEOUT, c)])
              \/ (runs d = [(cmd, deadline, Exited 0 out err written)]
                  /\ exists ts,
                       terminal_events d =
                         [Event ts (id j) (filename j) conversion_failed
                                (with_error ("Conversion did not produce PDF: expected "
                                             ++ pdf_path))]).
Proof.
  paths_of_handle_job; observe.
  all: intros cmd deadline out' err' written' Hrun Hprog.
  all: among; excluded; tests; try discriminate; try congruence.
  all: eexists; split; [reflexivity |]; cbv zeta.
  all: first
    [ left; eexists; reflexivity
    | right; split; [reflexivity | eexists; reflexivity] ].
Qed.

(** X12.  The scratch directory of a job is asked for once.  When it
    cannot be created, nothing is copied, no external program is run and
    no terminal entry is appended.  When it is created, the one copy made
    for the job goes from the job's uploaded file into that directory, and
    the directory is handed to the removal exactly once, on every path. *)
Theorem scratch_directory_lifecycle E wid j w :
  exists r w' d,
    exec E (handle_job E wid j) w = Some (r, w', d)
    /\ ((exists m,
           tmp_creations d = [Fault m]
           /\ copies d = [] /\ runs d = [] /\ tree_removals d = []
           /\ terminal_events d = [])
        \/ (exists tmpdir res copied,
              tmp_creations d = [Done tmpdir]
              /\ tree_removals d = [(tmpdir, res)]
              /\ copies d =
                   [(filepath j, Py.path_join tmpdir (secure_filename E (filename j)),
                     copied)])).
Proof.
  paths_of_handle_job; observe.
  all: first
    [ left; eexists; repeat split; reflexivity
    | right; eexists _, _, _; repeat split; reflexivity ].
Qed.


(** X13.  For a job whose file name has no dot, the look-up of the
    extension raises (unless an earlier step already did): no external
    program is run, no terminal entry is appended, the exception is logged
    by the worker, which goes on normally, and the uploaded file is still
    handed to [os.remove] once. *)
Theorem job_without_extension_is_dropped E wid j w :
  Py.rsplit1 (filename j) !! 1%nat = None ->
  exists r w' d,
    exec E (handle_job E wid j) w = Some (r, w', d)
    /\ r = Normal tt
    /\ runs d = []
    /\ terminal_events d = []
    /\ "Unhandled exception in worker" ∈ log_messages d
    /\ exists res, removals d = [(filepath j, res)].
Proof.
  intros Hext.
  paths_of_handle_job; observe.
  all: try congruence.
  all: repeat match goal with u : unit |- _ => destruct u end.
  all: repeat split; try reflexivity; try listed.
  all: eexists; reflexivity.
Qed.

(* ===================================================================== *)
(** ** More on the upload handler                                         *)
(* ===================================================================== *)

Lemma perform_files E {X} (o : op X) w x w' :
  on_files o = false ->
  perform E o w = Some (x, w') ->
  files w' = files w.
Proof.
  destruct o; try discriminate; intros _; cbn;
    repeat match goal with
    | |- context [match ?c with _ => _ end] => destruct c
    end; intros [= <- <-]; reflexivity.
Qed.

Lemma perform_queue_put E x w u w' :
  perform E (queue_put x) w = Some (u, w') ->
  job_queue w' = (job_queue w ++ [x])%list /\ files w' = files w.
Proof. intros [= <- <-]. split; reflexivity. Qed.

Lemma perform_file_save E f path w r w' :
  perform E (file_save f path) w = Some (r, w') ->
  job_queue w' = job_queue w
  /\ match r with
     | Done _ => path ∈ files w'
     | Fault _ => files w ⊆ files w' /\ files w' ⊆ {[path]} ∪ files w
     end.
Proof.
  cbn. unfold writing.
  destruct (io_fault E (ticks w)); [destruct (leaves_partial E (ticks w)) |];
    intros [= <- <-]; cbn.
  - split; [reflexivity |]. split; set_solver.
  - split; [reflexivity |]. split; set_solver.
  - split; [reflexivity |]. apply elem_of_union_l, elem_of_singleton. reflexivity.
Qed.

(** The decimal form of an integer never starts with a slash. *)
Lemma str_of_int_head z : exists c r, Py.str_of_int z = String c r /\ c <> "/"%char.
Proof.
  unfold Py.str_of_int.
  assert (Hu : forall u, u <> Decimal.Nil ->
            exists c r, NilZero.string_of_uint u = String c r /\ c <> "/"%char).
  { intros [| u | u | u | u | u | u | u | u | u | u] Hnil;
      [contradiction | ..]; cbn; eexists _, _; (split; [reflexivity | discriminate]). }
  destruct z as [| p | p]; cbn.
  - eexists _, _. split; [reflexivity | discriminate].
  - apply Hu, DecimalPos.Unsigned.to_uint_nonnil.
  - eexists _, _. split; [reflexivity | discriminate].
Qed.

Lemma upload_path z name :
  Py.path_join UPLOAD_FOLDER (Py.str_of_int z ++ "_" ++ name)
  = UPLOAD_FOLDER ++ "/" ++ Py.str_of_int z ++ "_" ++ name.
Proof.
  destruct (str_of_int_head z) as (c & r & -> & Hc).
  unfold Py.path_join. cbn [append].
  destruct c as [[] [] [] [] [] [] [] []]; try reflexivity.
  contradiction Hc. reflexivity.
Qed.

(** What is known of the queue and of the files after the primitives of a
    handler. *)
Ltac handler_facts :=
  repeat match goal with
  | H : perform _ (queue_put _) _ = Some _ |- _ =>
      apply perform_queue_put in H; destruct H as [? ?]
  | H : perform _ (file_save _ _) _ = Some _ |- _ =>
      apply perform_file_save in H; destruct H as [? ?]
  | H : perform _ ?o _ = Some _ |- _ =>
      let Hf := fresh "Hsame" in
      pose proof (perform_files _ o _ _ _ eq_refl H) as Hf;
      apply perform_shared in H; [destruct H as [? _] | reflexivity]
  end.

(** Closing a path on which a test has both results. *)
Ltac impossible :=
  try solve [match goal with
             | H : negb _ = _ |- _ => cbn in H; discriminate H
             end].

(** X14.  An upload answered with status 200 has put exactly one job, at
    the tail of the queue, and has appended exactly one history entry: the
    job's [queued] entry, with the job's identifier, file name, client and
    time of receipt.  The identifier in the answer is the job's, and the
    job's client is the address the request came from. *)
Theorem accepted_upload_enqueues_once E req w :
  exists resp w' d,
    exec E (upload E req) w = Some (Normal resp, w', d)
    /\ (resp.2 = 200%Z ->
        exists j,
          resp.1 = json_queued (id j)
          /\ puts d = [Some j]
          /\ job_queue w' = (job_queue w ++ [Some j])%list
          /\ client j = remote_addr req
          /\ appends d =
               [Event (received_at j) (id j) (filename j) queued (with_client (client j))]).
Proof.
  apply after_normal. unfold upload, utcnow_Z. symbolic.
  all: cbn [fst snd]; intros Hcode; try discriminate Hcode.
  all: observe. all: eexists (Job _ _ _ _ _); cbn [id filename client received_at].
  all: repeat split; try reflexivity.
  all: handler_facts; congruence.
Qed.

(** X15.  The job of an accepted upload carries the sanitised file name,
    and that name has an extension whose lower-cased form is one of [pdf],
    [docx], [pptx], [xlsx]: the worker's look-up of the extension cannot
    fail for it. *)
Theorem accepted_job_has_allowed_extension E req w :
  exists resp w' d,
    exec E (upload E req) w = Some (Normal resp, w', d)
    /\ (resp.2 = 200%Z ->
        exists f j ext,
          file_field req = Some f
          /\ puts d = [Some j]
          /\ filename j = secure_filename E (up_filename f)
          /\ Py.rsplit1 (filename j) !! 1%nat = Some ext
          /\ Py.lower ext ∈ ALLOWED_EXTENSIONS).
Proof.
  apply after_normal. unfold upload, utcnow_Z. symbolic.
  all: cbn [fst snd]; intros Hcode; try discriminate Hcode.
  all: observe; tests.
  all: match goal with
       | H : allowed_file _ = true |- _ =>
           unfold allowed_file in H; apply andb_true_iff in H; destruct H as [_ H];
           destruct (Py.rsplit1 _ !! 1%nat) as [ext |] eqn:Hext; [| discriminate H];
           apply bool_decide_eq_true in H
       end.
  all: eexists _, (Job _ _ _ _ _), ext; cbn [filename].
  all: repeat split; try reflexivity; assumption.
Qed.

(** X16.  An accepted upload has saved the file once, under the upload
    folder, in a file named by the millisecond reading of the clock, an
    underscore and the sanitised name; that path is the job's [filepath],
    and the save had succeeded before the job was put on the queue. *)
Theorem accepted_upload_is_stored E req w :
  exists resp w' d,
    exec E (upload E req) w = Some (Normal resp, w', d)
    /\ (resp.2 = 200%Z ->
        exists j d1 d2,
          d = (d1 ++ Did (queue_put (Some j)) tt :: d2)%list
          /\ saves d1 = [(filepath j, Done tt)]
          /\ puts d1 = [] /\ saves d2 = [] /\ puts d2 = []
          /\ filepath j =
               "/var/lib/stark/uploads/"
               ++ Py.str_of_int (clock_ms E (ticks w)) ++ "_" ++ filename j).
Proof.
  apply after_normal. unfold upload, utcnow_Z, REQUEST_ENTITY_TOO_LARGE. symbolic.
  all: cbn [fst snd]; intros Hcode; try discriminate Hcode.
  all: impossible.
  all: match goal with
       | H : perform _ time_millis _ = Some _ |- _ =>
           let H' := fresh in pose proof H as H'; injection H' as <- _
       end.
  all: repeat match goal with u : unit |- _ => destruct u end.
  all: eexists (Job _ _ _ _ _), [_; _; _], _; cbn [filepath filename].
  all: split; [reflexivity |].
  all: observe.
  all: repeat (split; [reflexivity |]).
  all: apply upload_path.
Qed.

(** X17.  An upload answered with 400 or 413 has performed no primitive at
    all: no file is written, nothing is logged, and the server is left
    exactly as it was.  An upload answered with 500 has tried to save the
    file once, and that raised; it puts nothing on the queue and removes
    nothing, so that the one file that may have appeared is the
    destination of the save, left behind when the save had created it
    before it failed. *)
Theorem failed_save_is_not_cleared E req w :
  exists resp w' d,
    exec E (upload E req) w = Some (Normal resp, w', d)
    /\ (resp.2 = 400%Z \/ resp.2 = 413%Z -> d = [] /\ w' = w)
    /\ (resp.2 = 500%Z ->
        exists path m,
          saves d = [(path, Fault m)]
          /\ puts d = [] /\ removals d = []
          /\ files w ⊆ files w'
          /\ files w' ⊆ {[path]} ∪ files w).
Proof.
  apply after_normal. unfold upload, utcnow_Z, REQUEST_ENTITY_TOO_LARGE. symbolic.
  all: impossible.
  all: cbn [fst snd]; split.
  all: try (intros [Hcode | Hcode]; discriminate Hcode).
  all: try (intros Hcode; discriminate Hcode).
  all: try (intros _; split; reflexivity).
  all: intros _; observe; eexists _, _.
  all: split; [reflexivity |]; split; [reflexivity |]; split; [reflexivity |].
  all: handler_facts.
  all: repeat match goal with
       | H : _ /\ _ |- _ => destruct H
       | H : files _ = files _ |- _ => rewrite H in *
       end.
  all: split; assumption.
Qed.

(** A save that fails on a full disk: the request is answered with 500,
    and the partly written file stays in the upload folder. *)
Example failed_save_leaves_partial_file :
  (fun '(r, w', _) => (r, elements (files w')))
    <$> exec full_upload_disk (upload full_upload_disk report_request) fresh_world
  = Some (Normal (json_error "Failed to save file", 500%Z),
          ["/var/lib/stark/uploads/1700000000000_report.pdf"]).
Proof. vm_compute. reflexivity. Qed.


(* ===================================================================== *)
(** ** The address filter                                                 *)
(* ===================================================================== *)

Lemma in_some_network_iff (L : ipaddress) (ip : address L) nets :
  in_some_network L ip nets = true <->
  exists net n, net ∈ nets /\ ip_network L net = Some n /\ contains L n ip = true.
Proof.
  induction nets as [| net rest IH]; cbn.
  - split; [discriminate |]. intros (net & n & Hin & _). inversion Hin.
  - destruct (ip_network L net) as [n |] eqn:Hn.
    + destruct (contains L n ip) eqn:Hc.
      * split; [| reflexivity]. intros _. exists net, n.
        split; [apply list_elem_of_here | auto].
      * rewrite IH. split.
        -- intros (net' & n' & Hin & H). exists net', n'.
           split; [apply list_elem_of_further, Hin | exact H].
        -- intros (net' & n' & Hin & Hn' & Hc').
           apply elem_of_cons in Hin. destruct Hin as [-> | Hin].
           ++ congruence.
           ++ eauto.
    + rewrite IH. split.
      * intros (net' & n' & Hin & H). exists net', n'.
        split; [apply list_elem_of_further, Hin | exact H].
      * intros (net' & n' & Hin & Hn' & Hc').
        apply elem_of_cons in Hin. destruct Hin as [-> | Hin].
        -- congruence.
        -- eauto.
Qed.

(** X19.  [ip_allowed] holds exactly of the addresses that parse and lie
    in one of the networks [192.168.0.0/16] and [10.0.0.0/8] that parses:
    an address that does not parse is refused, and a network that does not
    parse is passed over without refusing the address. *)
Theorem ip_allowed_iff (L : ipaddress) (remote : string) :
  ip_allowed L remote = true <->
  exists ip net n,
    ip_address L remote = Some ip
    /\ (net = "192.168.0.0/16" \/ net = "10.0.0.0/8")
    /\ ip_network L net = Some n
    /\ contains L n ip = true.
Proof.
  unfold ip_allowed. destruct (ip_address L remote) as [ip |].
  - rewrite in_some_network_iff. split.
    + intros (net & n & Hin & Hn & Hc). exists ip, net, n.
      repeat split; try assumption.
      unfold ALLOWED_NETWORKS in Hin. among; auto.
    + intros (ip' & net & n & [= <-] & Hnet & Hn & Hc). exists net, n.
      split; [| auto]. unfold ALLOWED_NETWORKS.
      destruct Hnet as [-> | ->]; listed.
  - split; [discriminate |]. intros (ip & net & n & [=] & _).
Qed.

Lemma upload_returns E req w :
  exists resp w' d, exec E (upload E req) w = Some (Normal resp, w', d).
Proof.
  assert (H : exists resp w' d,
            exec E (upload E req) w = Some (Normal resp, w', d) /\ True).
  { apply after_normal. unfold upload, utcnow_Z. symbolic. all: exact I. }
  destruct H as (resp & w' & d & H & _). eauto.
Qed.

(** X20.  A request from an address that is not allowed is answered with
    403 before [upload] runs: the one primitive performed is the warning
    that names the address, and the queue, the history and the files are
    left as they were.  A request from an allowed address is answered with
    what [upload] returns, and performs what [upload] performs. *)
Theorem post_upload_filters_addresses (L : ipaddress) E req w :
  exists rep w' d,
    exec E (post_upload L E req) w = Some (Normal rep, w', d)
    /\ (ip_allowed L (remote_addr req) = false ->
        rep = Aborted 403 "Forbidden"
        /\ d = [Did (logger WARNING ("Denied connection from " ++ remote_addr req)) tt]
        /\ job_queue w' = job_queue w
        /\ job_history w' = job_history w
        /\ files w' = files w)
    /\ (ip_allowed L (remote_addr req) = true ->
        exists resp,
          rep = Answered resp
          /\ exec E (upload E req) w = Some (Normal resp, w', d)).
Proof.
  unfold post_upload, restrict_remote.
  destruct (ip_allowed L (remote_addr req)); cbn [negb].
  - destruct (upload_returns E req w) as (resp & w' & d & Hex).
    exists (Answered resp), w', d.
    rewrite !exec_bind. cbn [mret py_ret ret exec]. rewrite exec_bind, Hex.
    cbn. rewrite app_nil_r. split; [reflexivity |].
    split; [discriminate |]. intros _. eauto.
  - eexists _, _, _. split; [cbn; reflexivity |].
    split; [| discriminate]. intros _. repeat split; reflexivity.
Qed.

(* ===================================================================== *)
(** ** The read-only endpoints and the ledger                             *)
(* ===================================================================== *)

(** X21.  One call of [record_history], on any ledger (also one that holds
    more than 200 entries), never raises, leaves the queue and the files
    alone, and puts the new entry last; it drops the oldest entry exactly
    when the ledger already held 200 entries or more, so it removes at
    most one entry. *)
Theorem record_history_on_any_ledger E e w :
  exists w' d,
    exec E (record_history e) w = Some (Normal tt, w', d)
    /\ job_queue w' = job_queue w
    /\ files w' = files w
    /\ job_history w' =
         ((if (length (job_history w) <? 200)%nat
           then job_history w else tail (job_history w)) ++ [e])%list.
Proof.
  rewrite exec_record_history. eexists _, _. split; [reflexivity |].
  cbn [job_queue files job_history]. repeat split.
  unfold capped. rewrite length_app. cbn [length].
  destruct (Nat.ltb_spec (length (job_history w)) 200) as [Hlt | Hge].
  - replace (200 <? length (job_history w) + 1)%nat with false; [reflexivity |].
    symmetry. apply Nat.ltb_ge. lia.
  - replace (200 <? length (job_history w) + 1)%nat with true.
    + destruct (job_history w); [cbn in Hge; lia | reflexivity].
    + symmetry. apply Nat.ltb_lt. lia.
Qed.

(** X22.  When calls of [record_history] do not overlap, each returning
    before the next starts: after the calls for the entries [es], made on
    a ledger of at most 200 entries, the ledger holds the 200 most recent
    of all entries (those it held followed by [es]), in the order of
    their insertion, and [/history] answers with the 100 most recent of
    them; the cap of the ledger never hides an entry the endpoint would
    show. *)
Theorem history_after_appends E (es : list event) (w : world) :
  length (job_history w) <= 200 ->
  exists w' d,
    exec E (record_all es) w = Some (Normal tt, w', d)
    /\ appends d = es
    /\ job_history w' =
         drop (length (job_history w ++ es)%list - 200) (job_history w ++ es)%list
    /\ history w' =
         drop (length (job_history w ++ es)%list - 100) (job_history w ++ es)%list.
Proof.
  intros Hw. destruct (exec_record_all E es w Hw) as (w' & d & Hex & Hh & Hd).
  exists w', d. split; [exact Hex |]. split; [exact Hd |]. split; [exact Hh |].
  unfold history. rewrite Hh, length_drop, drop_drop. f_equal. lia.
Qed.

(* ===================================================================== *)
(** ** The worker loop                                                    *)
(* ===================================================================== *)

Lemma processed_record_trace h e l :
  processed (record_trace h e ++ l) = processed (Did (history_append e) tt :: l).
Proof.
  unfold processed, appends. rewrite omap_record_trace by (intros; reflexivity).
  reflexivity.
Qed.

(** What one job's handling contributes to a turn of the loop. *)
Lemma handle_job_turn E wid j w :
  exists r w' d,
    exec E (handle_job E wid j) w = Some (r, w', d)
    /\ (r = Normal tt \/ r = Continue)
    /\ job_queue w' = job_queue w
    /\ puts d = [] /\ gets d = []
    /\ map fst (removals d) = [filepath j]
    /\ processed d = [label j].
Proof.
  paths_of_handle_job.
  all: repeat match goal with u : unit |- _ => destruct u end.
  all: split; [auto |].
  all: split; [queue_facts; congruence |].
  all: cbn [processed]; repeat (rewrite processed_record_trace || cbn [processed]).
  all: observe; repeat split; try reflexivity.
  all: unfold processed, appends; observe;
       repeat (rewrite omap_record_trace by (intros; reflexivity));
       reflexivity.
Qed.

Lemma exec_worker_turn_job E wid j q w :
  job_queue w = Some j :: q ->
  exists w' d,
    exec E (worker_turn E wid) w = Some (Normal Again, w', d)
    /\ job_queue w' = q
    /\ puts d = [] /\ gets d = [Some j]
    /\ map fst (removals d) = [filepath j]
    /\ processed d = [label j].
Proof.
  intros Hq. unfold worker_turn, mbind, py_bind, bind, call. cbn [pbind exec perform].
  rewrite Hq. unfold end_of_turn. rewrite exec_pbind.
  destruct (handle_job_turn E wid j (tick (set_queue q w)))
    as (r & w' & d & Hex & Hr & Hqueue & Hputs & Hgets & Hrem & Hproc).
  rewrite Hex.
  assert (Hend : exec E (match r with
                         | Normal _ | Continue => Ret (Normal Again)
                         | Raised e => Ret (Raised e)
                         end) w' = Some (Normal Again, w', [])).
  { destruct Hr as [-> | ->]; reflexivity. }
  rewrite Hend. eexists _, _. split; [reflexivity |].
  rewrite app_nil_r. split; [exact Hqueue |].
  unfold puts, gets, removals, processed, appends in *. cbn.
  rewrite Hputs, Hgets, Hrem. repeat split; try reflexivity. exact Hproc.
Qed.

Lemma exec_worker_turn_sentinel E wid q w :
  job_queue w = None :: q ->
  exists w' d,
    exec E (worker_turn E wid) w = Some (Normal Break, w', d)
    /\ job_queue w' = q
    /\ puts d = [] /\ gets d = [None]
    /\ removals d = [] /\ processed d = [].
Proof.
  intros Hq. unfold worker_turn, mbind, py_bind, bind, call, ret.
  cbn [pbind exec perform]. rewrite Hq.
  eexists _, _. split; [reflexivity |]. repeat split; reflexivity.
Qed.

Lemma exec_worker_turn_empty E wid w :
  job_queue w = [] -> exec E (worker_turn E wid) w = None.
Proof.
  intros Hq. unfold worker_turn, mbind, py_bind, bind, call.
  cbn [pbind exec perform]. rewrite Hq. reflexivity.
Qed.

Lemma exec_while_True_step E fuel (body : py loop_ctl) w :
  exec E (while_True (S fuel) body) w =
  match exec E body w with
  | None => None
  | Some (Normal Break, w', d) => Some (Normal tt, w', d)
  | Some (Normal Again, w', d) =>
      match exec E (while_True fuel body) w' with
      | None => None
      | Some (r, w'', d') => Some (r, w'', (d ++ d')%list)
      end
  | Some (Raised e, w', d) => Some (Raised e, w', d)
  | Some (Continue, w', d) => Some (Continue, w', d)
  end.
Proof.
  cbn [while_True]. rewrite exec_bind.
  destruct (exec E body w) as [[[[[] | e |] w'] d] |]; try reflexivity.
  cbn. rewrite app_nil_r. reflexivity.
Qed.

Lemma while_True_drains E wid js : forall fuel w rest,
  job_queue w = ((Some <$> js) ++ None :: rest)%list ->
  length js < fuel ->
  exists w' d,
    exec E (while_True fuel (worker_turn E wid)) w = Some (Normal tt, w', d)
    /\ job_queue w' = rest
    /\ puts d = []
    /\ gets d = ((Some <$> js) ++ [None])%list
    /\ map fst (removals d) = filepath <$> js
    /\ processed d = label <$> js.
Proof.
  induction js as [| j js IH]; intros fuel w rest Hq Hfuel;
    (destruct fuel as [| fuel]; [lia |]); rewrite exec_while_True_step.
  - destruct (exec_worker_turn_sentinel E wid rest w Hq)
      as (w' & d & -> & Hq' & Hputs & Hgets & Hrem & Hproc).
    exists w', d. rewrite Hrem. repeat split; assumption.
  - destruct (exec_worker_turn_job E wid j _ w Hq)
      as (w1 & d1 & -> & Hq1 & Hputs1 & Hgets1 & Hrem1 & Hproc1).
    destruct (IH fuel w1 rest Hq1) as (w' & d & -> & Hq' & Hputs & Hgets & Hrem & Hproc).
    { cbn in Hfuel. lia. }
    exists w', (d1 ++ d)%list. split; [reflexivity |]. split; [exact Hq' |].
    unfold puts, gets, removals, processed, appends in *.
    rewrite !omap_app, List.filter_app, !map_app.
    rewrite Hputs1, Hputs, Hgets1, Hgets, Hrem1, Hrem, Hproc1, Hproc.
    repeat split; reflexivity.
Qed.

Lemma worker_loop_stops_at_sentinel_aux E fuel wid js rest w :
  job_queue w = ((Some <$> js) ++ None :: rest)%list ->
  length js < fuel ->
  exists w' d,
    exec E (worker_loop E fuel wid) w = Some (Normal tt, w', d)
    /\ job_queue w' = rest
    /\ puts d = []
    /\ gets d = ((Some <$> js) ++ [None])%list
    /\ map fst (removals d) = filepath <$> js
    /\ processed d = label <$> js.
Proof.
  intros Hq Hfuel. unfold worker_loop, mbind, py_bind, bind, call.
  cbn [pbind exec perform].
  destruct (while_True_drains E wid js fuel (tick w) rest Hq Hfuel)
    as (w' & d & -> & Hq' & Hputs & Hgets & Hrem & Hproc).
  eexists _, _. split; [reflexivity |]. split; [exact Hq' |].
  unfold puts, gets, removals, processed, appends in *. cbn.
  repeat split; assumption.
Qed.

(** X23.  When the queue holds jobs followed by a sentinel, the worker
    loop handles exactly those jobs, in the order of the queue (one
    [processing] entry and one call of [os.remove] for each), takes the
    sentinel and returns; it puts nothing on the queue, and what was
    queued behind the sentinel stays there. *)
Theorem worker_loop_stops_at_sentinel E fuel wid js rest w :
  job_queue w = ((Some <$> js) ++ None :: rest)%list ->
  length js < fuel ->
  exists w' d,
    exec E (worker_loop E fuel wid) w = Some (Normal tt, w', d)
    /\ job_queue w' = rest
    /\ puts d = []
    /\ gets d = ((Some <$> js) ++ [None])%list
    /\ map fst (removals d) = filepath <$> js
    /\ processed d = label <$> js.
Proof. apply worker_loop_stops_at_sentinel_aux. Qed.

Lemma while_True_never_raises E wid : forall fuel w r w' d,
  exec E (while_True fuel (worker_turn E wid)) w = Some (r, w', d) ->
  r = Normal tt
  /\ (last (gets d) = Some None \/ length (gets d) = fuel).
Proof.
  induction fuel as [| fuel IH]; intros w r w' d.
  - cbn. intros [= <- <- <-]. auto.
  - rewrite exec_while_True_step.
    destruct (job_queue w) as [| [j |] q] eqn:Hq.
    + rewrite (exec_worker_turn_empty E wid w Hq). discriminate.
    + destruct (exec_worker_turn_job E wid j q w Hq)
        as (w1 & d1 & -> & _ & _ & Hgets1 & _).
      destruct (exec E (while_True fuel (worker_turn E wid)) w1)
        as [[[r2 w2] d2] |] eqn:Hrest; [| discriminate].
      intros [= <- <- <-]. destruct (IH _ _ _ _ Hrest) as [-> Hend].
      split; [reflexivity |]. unfold gets in *. rewrite omap_app, Hgets1.
      destruct Hend as [Hlast | Hlen].
      * left. cbn [app]. destruct (omap dequeued d2); [discriminate | exact Hlast].
      * right. cbn. rewrite Hlen. reflexivity.
    + destruct (exec_worker_turn_sentinel E wid q w Hq)
        as (w1 & d1 & -> & _ & _ & Hgets1 & _).
      intros [= <- <- <-]. split; [reflexivity |]. left. rewrite Hgets1. reflexivity.
Qed.

(** X24.  Whenever the worker loop returns, it returns normally: no
    failure of a job (conversion, printing, the file system) ends the loop
    by an exception, and the loop ends only after it has taken a sentinel
    from the queue (or, in this model, after the given number of
    turns). *)
Theorem worker_loop_never_raises E fuel wid w r w' d :
  exec E (worker_loop E fuel wid) w = Some (r, w', d) ->
  r = Normal tt
  /\ (last (gets d) = Some None \/ length (gets d) = fuel).
Proof.
  unfold worker_loop, mbind, py_bind, bind, call. cbn [pbind exec perform].
  destruct (exec E _ (tick w)) as [[[r2 w2] d2] |] eqn:Hloop; [| discriminate].
  intros [= <- <- <-]. apply while_True_never_raises in Hloop. exact Hloop.
Qed.

(** X25.  [shutdown_workers] puts one sentinel behind what is queued.  A
    worker loop that runs afterwards takes every job that was queued
    before, in order, and returns with the queue empty. *)
Theorem shutdown_drains_the_queue E fuel wid js w :
  job_queue w = Some <$> js ->
  length js < fuel ->
  exists w1 d1,
    exec E shutdown_workers w = Some (Normal tt, w1, d1)
    /\ puts d1 = [None]
    /\ job_queue w1 = ((Some <$> js) ++ [None])%list
    /\ exists w2 d2,
         exec E (worker_loop E fuel wid) w1 = Some (Normal tt, w2, d2)
         /\ job_queue w2 = []
         /\ taken d2 = js.
Proof.
  intros Hq Hfuel.
  exists (World (job_queue w ++ [None])%list (job_history w) (files w) (S (S (ticks w)))).
  eexists. split; [reflexivity |]. split; [reflexivity |].
  rewrite Hq. split; [reflexivity |].
  edestruct (worker_loop_stops_at_sentinel_aux E fuel wid js [])
    as (w2 & d2 & Hex & Hq2 & _ & Hgets & _);
    [| exact Hfuel | exists w2, d2; split; [exact Hex |]; split; [exact Hq2 |]].
  - reflexivity.
  - unfold taken. rewrite Hgets, omap_app. cbn. rewrite app_nil_r.
    clear. induction js as [| j js IH]; cbn; [reflexivity | rewrite IH; reflexivity].
Qed.

(* ===================================================================== *)
(** ** The running server                                                 *)
(* ===================================================================== *)

Lemma puts_at_most_pbind {A B} n (p : prog A) (f : A -> prog B) :
  puts_at_most 0 p -> (forall a, puts_at_most n (f a)) -> puts_at_most n (pbind p f).
Proof.
  intros Hp Hf. induction p as [a | X o k IH]; cbn [pbind].
  - apply Hf.
  - cbn [puts_at_most] in *. destruct (is_put o).
    + destruct Hp as [Hp _]. lia.
    + intros x. apply IH, Hp.
Qed.

Lemma puts_at_most_vis {A X} n (o : op X) (k : X -> prog A) :
  is_put o = false -> (forall x, puts_at_most n (k x)) -> puts_at_most n (Vis o k).
Proof. intros Ho Hk. cbn [puts_at_most]. rewrite Ho. exact Hk. Qed.

Lemma puts_at_most_put {A} n x (k : unit -> prog A) :
  (forall u, puts_at_most n (k u)) -> puts_at_most (S n) (Vis (queue_put x) k).
Proof.
  intros Hk. cbn [puts_at_most is_put]. split; [lia |].
  replace (S n - 1) with n by lia. exact Hk.
Qed.

(** Walking through a program to count what it puts on the queue. *)
Ltac sparing_walk :=
  repeat first
    [ exact I
    | apply puts_at_most_vis; [reflexivity | intros ?]
    | apply puts_at_most_put; intros ?
    | apply puts_at_most_pbind; [| intros ?]
    | match goal with
      | |- puts_at_most _ (match ?x with _ => _ end) => destruct x
      end
    | progress unfold mbind, py_bind, bind, mret, py_ret, ret, raise, continue,
        call, call_io, try_except, try_finally, with_TemporaryDirectory,
        record_history, utcnow_Z, run_subprocess, convert_to_pdf, print_pdf, cleanup ].

Lemma upload_puts_once E req : puts_at_most 1 (upload E req).
Proof.
  unfold upload, mbind, py_bind, bind, mret, py_ret, ret, call, call_io, try_except,
    utcnow_Z.
  cbn [pbind]. sparing_walk.
Qed.

Lemma worker_turn_puts_nothing E wid : puts_at_most 0 (worker_turn E wid).
Proof.
  unfold worker_turn, end_of_turn, handle_job, process. sparing_walk.
Qed.

Lemma start_worker_puts_nothing E i : puts_at_most 0 (start_worker E i).2.
Proof.
  unfold start_worker. cbn [snd]. unfold mbind, py_bind, bind, call. cbn [pbind].
  apply puts_at_most_vis; [reflexivity | intros _]. apply worker_turn_puts_nothing.
Qed.

Lemma puts_of_step {X} (o : op X) x d :
  length (puts (d ++ [Did o x])) = length (puts d) + (if is_put o then 1 else 0).
Proof.
  rewrite puts_snoc, length_app. destruct o; reflexivity.
Qed.

Lemma sum_list_spend (budgets : list nat) i n :
  budgets !! i = Some n -> 0 < n ->
  sum_list (<[i := n - 1]> budgets) + 1 = sum_list budgets.
Proof.
  revert i. induction budgets as [| b budgets IH]; intros [| i]; cbn; try discriminate.
  - intros [= ->] Hn. clear IH. generalize (sum_list budgets). intros m. lia.
  - intros Hi Hn. rewrite <- (IH i Hi Hn). symmetry. apply Nat.add_assoc.
Qed.

Lemma sparing_boot E fs : sparing (boot E fs).
Proof.
  exists []. split; [constructor |]. split; [| reflexivity].
  unfold boot. cbn [workers]. apply Forall_fmap, Forall_forall.
  intros i _. apply start_worker_puts_nothing.
Qed.

Lemma sparing_step E a s : sparing s -> sparing (step E a s).
Proof.
  intros (budgets & Hh & Hw & Hcount). destruct a as [req | i | i]; cbn [step].
  - exists (budgets ++ [1])%list. split; [| split; [exact Hw |]].
    + apply Forall2_app; [exact Hh |]. constructor; [apply upload_puts_once | constructor].
    + cbn [performed handlers]. rewrite sum_list_with_app, length_app. cbn. lia.
  - destruct (handlers s !! i) as [h |] eqn:Hi; [| exists budgets; repeat split; assumption].
    destruct (step_thread E h s) as [[[h' w'] e] |] eqn:Hstep;
      [| exists budgets; repeat split; assumption].
    apply step_thread_inv in Hstep. destruct Hstep as (X & o & k & x & -> & _ & -> & ->).
    destruct (Forall2_lookup_r _ _ _ _ _ Hh Hi) as (n & Hn & Hbudget).
    cbn [puts_at_most] in Hbudget.
    pose proof (puts_of_step o x (performed s)) as Hputs.
    destruct (is_put o).
    + destruct Hbudget as [Hpos Hk]. exists (<[i := n - 1]> budgets).
      split; [apply Forall2_insert; [exact Hh | apply Hk] |]. split; [exact Hw |].
      cbn [performed handlers]. rewrite Hputs, length_insert, <- Hcount.
      rewrite <- (sum_list_spend budgets i n Hn Hpos). lia.
    + exists budgets.
      split; [| split; [exact Hw |]].
      * rewrite <- (list_insert_id budgets i n Hn).
        apply Forall2_insert; [exact Hh | apply Hbudget].
      * cbn [performed handlers]. rewrite Hputs, length_insert, <- Hcount. lia.
  - assert (Hstay : sparing s) by (exists budgets; repeat split; assumption).
    destruct (workers s !! i) as [[worker_id p] |] eqn:Hi; [| exact Hstay].
    pose proof (proj1 (Forall_lookup _ _) Hw _ _ Hi) as Hnone. cbn [snd] in Hnone.
    assert (Hgo : forall p',
              step_thread E p s = Some p' ->
              sparing
                (Server p'.1.2 (handlers s) (<[i := (worker_id, p'.1.1)]> (workers s))
                        (performed s ++ [p'.2]))).
    { intros [[p' w'] e] Hstep. cbn [fst snd].
      apply step_thread_inv in Hstep. destruct Hstep as (X & o & k & x & -> & _ & -> & ->).
      cbn [puts_at_most] in Hnone.
      pose proof (puts_of_step o x (performed s)) as Hputs.
      destruct (is_put o); [destruct Hnone as [Hpos _]; lia |].
      exists budgets. split; [exact Hh |]. split.
      - apply Forall_insert; [exact Hw | apply Hnone].
      - cbn [performed handlers]. rewrite Hputs, <- Hcount. lia. }
    destruct p as [[[] | e |] | X o k].
    + exact Hstay.
    + exists budgets. split; [exact Hh |]. split; [| exact Hcount].
      apply Forall_insert; [exact Hw | apply worker_turn_puts_nothing].
    + exact Hstay.
    + exact Hstay.
    + destruct (step_thread E (Vis o k) s) as [p' |] eqn:Hstep; [| exact Hstay].
      destruct p' as [[p' w'] e']. exact (Hgo _ eq_refl).
Qed.

Lemma sparing_run E sched : forall s, sparing s -> sparing (run_schedule E sched s).
Proof.
  induction sched as [| a sched IH]; intros s Hs; [exact Hs |].
  cbn. apply IH, sparing_step, Hs.
Qed.

Lemma handlers_of_step E a s :
  length (handlers (step E a s))
  = length (handlers s) + (match a with Arrive _ => 1 | _ => 0 end).
Proof.
  destruct a as [req | i | i]; cbn [step].
  - cbn. rewrite length_app. reflexivity.
  - destruct (handlers s !! i); [| lia].
    destruct (step_thread E p s) as [[[? ?] ?] |]; cbn; rewrite ?length_insert; lia.
  - destruct (workers s !! i) as [[worker_id p] |]; [| lia].
    destruct p as [[[] | e |] | X o k]; cbn; try lia.
    destruct (perform E o (shared s)) as [[? ?] |]; cbn; lia.
Qed.

Lemma handlers_of_run E sched : forall s,
  length (handlers (run_schedule E sched s)) = length (handlers s) + arrivals sched.
Proof.
  induction sched as [| a sched IH]; intros s; [cbn; lia |].
  cbn [run_schedule fold_left]. fold (run_schedule E sched (step E a s)).
  rewrite IH, handlers_of_step. unfold arrivals. cbn [List.filter].
  destruct a; cbn [length]; lia.
Qed.

(** X26.  Whatever the schedule of requests, handler steps and worker
    steps: the handler of a request puts at most one item on the queue and
    the worker puts none, so the number of items put so far is at most the
    number of requests received; and the queue size that [/health]
    reports, together with the number of items the worker has taken, is
    that number of items put. *)
Theorem health_bounded_by_requests E fs sched :
  exists queue_size,
    health (shared (run_schedule E sched (boot E fs))) = ("ok", queue_size, 200%Z)
    /\ length (puts (performed (run_schedule E sched (boot E fs)))) <= arrivals sched
    /\ queue_size + length (gets (performed (run_schedule E sched (boot E fs))))
       = length (puts (performed (run_schedule E sched (boot E fs)))).
Proof.
  destruct (sparing_run E sched _ (sparing_boot E fs)) as (budgets & _ & _ & Hcount).
  destruct (run_schedule_inv E sched _ (boot_inv E fs)) as (Hfifo & _).
  rewrite handlers_of_run in Hcount. cbn [boot handlers length] in Hcount.
  eexists. split; [reflexivity |]. split; [lia |].
  rewrite <- Hfifo, length_app. lia.
Qed.

Lemma careful_vis {A X} (o : op X) (k : X -> prog A) :
  puts_good o -> (forall x, careful (k x)) -> careful (Vis o k).
Proof. intros Ho Hk. split; assumption. Qed.

Lemma careful_pbind {A B} (p : prog A) (f : A -> prog B) :
  careful p -> (forall a, careful (f a)) -> careful (pbind p f).
Proof.
  intros Hp Hf. induction p as [a | X o k IH]; cbn [pbind].
  - apply Hf.
  - destruct Hp as [Ho Hk]. split; [assumption |]. intros x. apply IH, Hk.
Qed.

(** Walking through a program to see that it is careful. *)
Ltac careful_walk :=
  repeat first
    [ exact I
    | apply careful_vis; [first [exact I | cbn; eauto] | intros ?]
    | apply careful_pbind; [| intros ?]
    | match goal with
      | |- careful (match ?x with _ => _ end) => destruct x eqn:?
      end
    | progress unfold mbind, py_bind, bind, mret, py_ret, ret, raise, continue,
        call, call_io, try_except, try_finally, with_TemporaryDirectory,
        record_history, utcnow_Z, run_subprocess, convert_to_pdf, print_pdf, cleanup ].

Lemma upload_careful E req : careful (upload E req).
Proof.
  unfold upload. careful_walk.
  all: tests.
  all: eexists; split; [reflexivity | cbn [filename]; assumption].
Qed.

Lemma worker_turn_careful E wid : careful (worker_turn E wid).
Proof.
  unfold worker_turn, end_of_turn, handle_job, process. careful_walk.
Qed.

Lemma start_worker_careful E i : careful (start_worker E i).2.
Proof.
  unfold start_worker. cbn [snd]. unfold mbind, py_bind, bind, call. cbn [pbind].
  apply careful_vis; [exact I | intros _]. apply worker_turn_careful.
Qed.

Lemma careful_step {X} (o : op X) x d :
  puts_good o -> Forall good_item (puts d) -> Forall good_item (puts (d ++ [Did o x])).
Proof.
  intros Ho Hd. rewrite puts_snoc. apply Forall_app. split; [exact Hd |].
  destruct o; cbn; try (apply Forall_nil; exact I).
  apply Forall_cons. split; [exact Ho | apply Forall_nil; exact I].
Qed.

Lemma careful_boot E fs : careful_server (boot E fs).
Proof.
  split; [constructor |]. split; [| constructor].
  unfold boot. cbn [workers]. apply Forall_fmap, Forall_forall.
  intros i _. apply start_worker_careful.
Qed.

Lemma careful_step_server E a s : careful_server s -> careful_server (step E a s).
Proof.
  intros (Hh & Hw & Hp). destruct a as [req | i | i]; cbn [step].
  - split; [| split; assumption].
    apply Forall_app. split; [exact Hh |]. constructor; [apply upload_careful | constructor].
  - destruct (handlers s !! i) as [h |] eqn:Hi; [| repeat split; assumption].
    destruct (step_thread E h s) as [[[h' w'] e] |] eqn:Hstep; [| repeat split; assumption].
    apply step_thread_inv in Hstep. destruct Hstep as (X & o & k & x & -> & _ & -> & ->).
    destruct (proj1 (Forall_lookup _ _) Hh _ _ Hi) as [Ho Hk].
    split; [apply Forall_insert; [exact Hh | apply Hk] |].
    split; [exact Hw | apply careful_step; assumption].
  - destruct (workers s !! i) as [[worker_id p] |] eqn:Hi; [| repeat split; assumption].
    pose proof (proj1 (Forall_lookup _ _) Hw _ _ Hi) as Hcareful. cbn [snd] in Hcareful.
    assert (Hgo : forall p',
              step_thread E p s = Some p' ->
              careful_server
                (Server p'.1.2 (handlers s) (<[i := (worker_id, p'.1.1)]> (workers s))
                        (performed s ++ [p'.2]))).
    { intros [[p' w'] e] Hstep. cbn [fst snd].
      apply step_thread_inv in Hstep. destruct Hstep as (X & o & k & x & -> & _ & -> & ->).
      destruct Hcareful as [Ho Hk].
      split; [exact Hh |]. split; [| apply careful_step; assumption].
      apply Forall_insert; [exact Hw | apply Hk]. }
    assert (Hstay : careful_server s) by (repeat split; assumption).
    destruct p as [[[] | e |] | X o k].
    + exact Hstay.
    + split; [exact Hh |]. split; [| exact Hp].
      apply Forall_insert; [exact Hw | apply worker_turn_careful].
    + exact Hstay.
    + exact Hstay.
    + destruct (step_thread E (Vis o k) s) as [p' |] eqn:Hstep; [| exact Hstay].
      destruct p' as [[p' w'] e']. exact (Hgo _ eq_refl).
Qed.

Lemma careful_run E sched : forall s,
  careful_server s -> careful_server (run_schedule E sched s).
Proof.
  induction sched as [| a sched IH]; intros s Hs; [exact Hs |].
  cbn. apply IH, careful_step_server, Hs.
Qed.

(** X27.  Whatever the schedule of requests, handler steps and worker
    steps, every item put on the queue is a job whose file name passes
    [allowed_file]; so every item the worker takes is such a job, and the
    worker's look-up of the extension finds a lower-cased extension among
    [pdf], [docx], [pptx], [xlsx]. *)
Theorem worker_only_meets_allowed_jobs E fs sched :
  Forall good_item (puts (performed (run_schedule E sched (boot E fs))))
  /\ forall i x,
       gets (performed (run_schedule E sched (boot E fs))) !! i = Some x ->
       exists j ext,
         x = Some j
         /\ Py.rsplit1 (filename j) !! 1%nat = Some ext
         /\ Py.lower ext ∈ ALLOWED_EXTENSIONS.
Proof.
  destruct (careful_run E sched _ (careful_boot E fs)) as (_ & _ & Hputs).
  destruct (run_schedule_inv E sched _ (boot_inv E fs)) as (Hfifo & _).
  split; [exact Hputs |]. intros i x Hi.
  assert (Hx : puts (performed (run_schedule E sched (boot E fs))) !! i = Some x).
  { rewrite <- Hfifo. apply lookup_app_l_Some, Hi. }
  destruct (proj1 (Forall_lookup _ _) Hputs _ _ Hx) as (j & -> & Hallowed).
  unfold allowed_file in Hallowed. apply andb_true_iff in Hallowed.
  destruct Hallowed as [_ Hext].
  destruct (Py.rsplit1 (filename j) !! 1%nat) as [ext |] eqn:Hsplit; [| discriminate].
  apply bool_decide_eq_true in Hext. exists j, ext.
  split; [reflexivity |]. split; [exact Hsplit | exact Hext].
Qed.

(* ===================================================================== *)
(** ** The further properties at work                                     *)
(* ===================================================================== *)

(** [README], for which the worker finds no extension. *)
Lemma readme_is_dropped :
  exists r w' d,
    exec office (handle_job office 1 bare_job) (holding bare_job) = Some (r, w', d)
    /\ r = Normal tt
    /\ runs d = []
    /\ terminal_events d = []
    /\ "Unhandled exception in worker" ∈ log_messages d
    /\ exists res, removals d = [(filepath bare_job, res)].
Proof.
  apply (job_without_extension_is_dropped office 1 bare_job (holding bare_job)).
  reflexivity.
Defined.

(** Sixty entries recorded in a ledger that holds 150: the ten oldest
    entries are dropped, and [/history] shows the last hundred. *)
Lemma history_shows_last_hundred :
  exists w' d,
    exec office (record_all (map numbered (seq 150 60))) busy_ledger
      = Some (Normal tt, w', d)
    /\ job_history w' = map numbered (seq 10 200)
    /\ history w' = map numbered (seq 110 100).
Proof.
  destruct (history_after_appends office (map numbered (seq 150 60)) busy_ledger)
    as (w' & d & Hex & _ & Hledger & Hshown).
  { vm_compute. lia. }
  exists w', d. split; [exact Hex |]. split.
  - rewrite Hledger. vm_compute. reflexivity.
  - rewrite Hshown. vm_compute. reflexivity.
Defined.

(** One PDF job and the sentinel. *)
Lemma last_job_then_stop :
  exists w' d,
    exec office (worker_loop office 5 1) (last_job pdf_job) = Some (Normal tt, w', d)
    /\ job_queue w' = []
    /\ puts d = []
    /\ gets d = ((Some <$> [pdf_job]) ++ [None])%list
    /\ map fst (removals d) = filepath <$> [pdf_job]
    /\ processed d = label <$> [pdf_job].
Proof.
  apply (worker_loop_stops_at_sentinel office 5 1 [pdf_job] [] (last_job pdf_job)).
  - reflexivity.
  - cbn. lia.
Defined.

(** The same run never raises. *)
Lemma last_job_never_raises :
  exists r w' d,
    exec office (worker_loop office 5 1) (last_job pdf_job) = Some (r, w', d)
    /\ r = Normal tt
    /\ (last (gets d) = Some None \/ length (gets d) = 5).
Proof.
  destruct (exec office (worker_loop office 5 1) (last_job pdf_job))
    as [[[r w'] d] |] eqn:Hex.
  - exists r, w', d. split; [reflexivity |].
    exact (worker_loop_never_raises office 5 1 (last_job pdf_job) r w' d Hex).
  - vm_compute in Hex. discriminate Hex.
Defined.

(** One PDF job queued when the server shuts down. *)
Lemma shutdown_with_one_job_queued :
  exists w1 d1,
    exec office shutdown_workers (one_queued pdf_job) = Some (Normal tt, w1, d1)
    /\ puts d1 = [None]
    /\ job_queue w1 = ((Some <$> [pdf_job]) ++ [None])%list
    /\ exists w2 d2,
         exec office (worker_loop office 5 1) w1 = Some (Normal tt, w2, d2)
         /\ job_queue w2 = []
         /\ taken d2 = [pdf_job].
Proof.
  apply (shutdown_drains_the_queue office 5 1 [pdf_job] (one_queued pdf_job)).
  - reflexivity.
  - cbn. lia.
Defined.
